(** * kt_simul: the simulation driver [Metaphase] of [kt_simul/core/simul_spindle.py]

    A shallow embedding of the driver class [Metaphase]: its constructor,
    the main loop [simul], the anaphase latch [_anaphase_test], the laser
    ablation [_ablation], the checkpoints and the attachment classifier
    [get_attachment].

    Conventions of the embedding.
    - Python numbers (ints and floats) are exact rationals [Q]; [int(x)]
      is truncation toward zero.  Rounding of float arithmetic is not
      modelled.
    - The parameter dict [KD.params] is a [gmap string Q]; reading a
      missing key raises [KeyError].
    - A method is a computation in the monad [M]: it takes the world (the
      [Metaphase] instance with its [KD], plus the trace of the calls that
      leave the driver: logger, progress display, integrator) and returns
      an outcome together with the world it leaves behind, which Python
      keeps also when an exception is raised.
    - The classes of [kt_simul.core.spindle_dynamics] (the integrator and
      the entities it moves) are the physical collaborator of the driver;
      the methods the driver calls on them are the fields of the class
      [Collaborator], and every statement about the driver holds for all
      of its instances.
    - The plug-site objects are shared between [spindle.all_plugsites] and
      the centromeres: the list is the store, a centromere holds
      positions in it. *)

From Stdlib Require Import ZArith QArith Qround Ascii String List Bool Lia.
From Stdlib Require Import DecimalString.
From stdpp Require Import base list strings gmap.

Local Open Scope string_scope.
Local Open Scope Z_scope.

(** ** Python values *)

Module Py.

(** Exceptions the driver can raise or let through. *)
Inductive exn : Type :=
| SimulationAlreadyDone (msg : string)
| KeyError (key : string)
| IndexError
| ZeroDivisionError
| CollaboratorError (msg : string).

Inductive outcome (A : Type) : Type :=
| Ok (a : A)
| Raise (e : exn).
Arguments Ok {A} a.
Arguments Raise {A} e.

(** [int(x)] on a number: truncation toward zero. *)
Definition int (x : Q) : Z := Z.quot (Qnum x) (Z.pos (Qden x)).

(** [x / y] with [from __future__ import division]. *)
Definition truediv (x y : Q) : outcome Q :=
  if Qeq_bool y 0 then Raise ZeroDivisionError else Ok (x / y)%Q.

Definition le (x y : Q) : bool := Qle_bool x y.
Definition lt (x y : Q) : bool := negb (Qle_bool y x).
Definition eq (x y : Q) : bool := Qeq_bool x y.

(** [str(n)] for an int. *)
Definition str (n : Z) : string := NilZero.string_of_int (Z.to_int n).

Fixpoint spaces (n : nat) : string :=
  match n with
  | O => EmptyString
  | S k => String " " (spaces k)
  end.

(** ["%<width>d" % n]: right-justified in a field of [width]. *)
Definition fmt_d (width : nat) (n : Z) : string :=
  let s := str n in spaces (width - String.length s) ++ s.

(** [l[i]] for a list. *)
Definition getitem {A : Type} (l : list A) (i : nat) : outcome A :=
  match l !! i with
  | Some x => Ok x
  | None => Raise IndexError
  end.

(** [range(lo, hi)]. *)
Definition range (lo hi : Z) : list Z :=
  map (fun i : nat => lo + Z.of_nat i) (seq 0 (Z.to_nat (hi - lo))).

(** [np.any] and [sum] on an array of ints. *)
Definition np_any (l : list Z) : bool := existsb (fun x => negb (x =? 0)) l.
Definition sum (l : list Z) : Z := fold_left Z.add l 0.

End Py.

Import Py.

(** ** The attachment classifier *)

Module Attachment.

(** [state[i]] inside the predicates.  They run only after
    [permuted_state] has been built from [state[0] .. state[3]], so the
    index is in range there and the default is never returned. *)
Definition at_ (state : list Z) (i : nat) : Z := nth i state 0.

Definition amphitelic (state : list Z) : bool :=
  (0 <? at_ state 0) && (0 <? at_ state 1) &&
  (at_ state 2 =? 0) && (at_ state 3 =? 0).

Definition monotelic (state : list Z) : bool :=
  (0 <? at_ state 0) && (at_ state 1 =? 0) &&
  (at_ state 2 =? 0) && (at_ state 3 =? 0).

Definition syntelic (state : list Z) : bool :=
  (0 <? at_ state 0) && (at_ state 1 =? 0) &&
  (at_ state 2 =? 0) && (0 <? at_ state 3).

Definition merotelic (state : list Z) : bool :=
  (0 <? at_ state 0) && (0 <? at_ state 2).

Definition unattached (state : list Z) : bool :=
  (at_ state 0 =? 0) && (at_ state 1 =? 0) &&
  (at_ state 2 =? 0) && (at_ state 3 =? 0).

(** [permuted_state = [state[1], state[0], state[3], state[2]]]; a state
    shorter than four raises [IndexError] here. *)
Definition permute (state : list Z) : outcome (list Z) :=
  match getitem state 1 with Raise e => Raise e | Ok s1 =>
  match getitem state 0 with Raise e => Raise e | Ok s0 =>
  match getitem state 3 with Raise e => Raise e | Ok s3 =>
  match getitem state 2 with Raise e => Raise e | Ok s2 =>
    Ok [s1; s0; s3; s2]
  end end end end.

(** [Metaphase.get_attachment(state)]. *)
Definition get_attachment (state : list Z) : outcome Z :=
  match permute state with
  | Raise e => Raise e
  | Ok permuted_state =>
      if amphitelic state || amphitelic permuted_state then Ok 0
      else if monotelic state || monotelic permuted_state then Ok 1
      else if syntelic state || syntelic permuted_state then Ok 2
      else if merotelic state || merotelic permuted_state then Ok 3
      else if unattached state || unattached permuted_state then Ok 4
      else Ok 5
  end.

(** [Metaphase.get_attachment_names()]. *)
Definition get_attachment_names : list string :=
  ["amphitelic"; "monotelic"; "syntelic"; "merotelic"; "unattached"; "error"].

(** The name of the class of a state: [get_attachment_names()] at the
    index [get_attachment] returns. *)
Definition label (state : list Z) : outcome string :=
  match get_attachment state with
  | Raise e => Raise e
  | Ok i => getitem get_attachment_names (Z.to_nat i)
  end.

End Attachment.

(** ** The data model *)

(** The entities of [kt_simul.core.spindle_dynamics] the driver touches,
    with the attributes it reads or writes. *)

Module Spb.
Record t : Type := { pos : Q; traj : list Q }.
End Spb.

Module PlugSite.
Record t : Type :=
  { site_id : Z;
    pos : Q;
    plug_state : Z;
    (** the transitions recorded so far, as (time point, new state) *)
    state_hist : list (Z * Z) }.
End PlugSite.

Module Centromere.
(** [plugsites] holds the positions, in [spindle.all_plugsites], of the
    plug-site objects of the centromere: the objects are shared. *)
Record t : Type :=
  { tag : string; pos : Q; plugsites : list nat; toa : Q }.
End Centromere.

Module Chromosome.
Record t : Type :=
  { ch_id : Z;
    cen_A : Centromere.t;
    cen_B : Centromere.t;
    correct_history : list (list Z);
    erroneous_history : list (list Z) }.

Definition set_cen_A (c : Centromere.t) (ch : t) : t :=
  {| ch_id := ch_id ch; cen_A := c; cen_B := cen_B ch;
     correct_history := correct_history ch;
     erroneous_history := erroneous_history ch |}.

Definition set_cen_B (c : Centromere.t) (ch : t) : t :=
  {| ch_id := ch_id ch; cen_A := cen_A ch; cen_B := c;
     correct_history := correct_history ch;
     erroneous_history := erroneous_history ch |}.
End Chromosome.

Definition Matrix : Type := list (list Q).

(** The attributes of a [KinetoDynamics] instance. *)
Record KinetoDynamics : Type :=
  { params : gmap string Q;
    anaphase : bool;
    simulation_done : bool;
    spbL : Spb.t;
    spbR : Spb.t;
    chromosomes : list Chromosome.t;
    (** [spindle.all_plugsites] *)
    all_plugsites : list PlugSite.t;
    A0_mat : Matrix;
    B_mat : Matrix }.

Definition set_params (v : gmap string Q) (kd : KinetoDynamics) : KinetoDynamics :=
  {| params := v; anaphase := anaphase kd;
     simulation_done := simulation_done kd; spbL := spbL kd; spbR := spbR kd;
     chromosomes := chromosomes kd; all_plugsites := all_plugsites kd;
     A0_mat := A0_mat kd; B_mat := B_mat kd |}.

Definition set_anaphase (v : bool) (kd : KinetoDynamics) : KinetoDynamics :=
  {| params := params kd; anaphase := v;
     simulation_done := simulation_done kd; spbL := spbL kd; spbR := spbR kd;
     chromosomes := chromosomes kd; all_plugsites := all_plugsites kd;
     A0_mat := A0_mat kd; B_mat := B_mat kd |}.

Definition set_chromosomes (v : list Chromosome.t) (kd : KinetoDynamics) : KinetoDynamics :=
  {| params := params kd; anaphase := anaphase kd;
     simulation_done := simulation_done kd; spbL := spbL kd; spbR := spbR kd;
     chromosomes := v; all_plugsites := all_plugsites kd;
     A0_mat := A0_mat kd; B_mat := B_mat kd |}.

Definition set_all_plugsites (v : list PlugSite.t) (kd : KinetoDynamics) : KinetoDynamics :=
  {| params := params kd; anaphase := anaphase kd;
     simulation_done := simulation_done kd; spbL := spbL kd; spbR := spbR kd;
     chromosomes := chromosomes kd; all_plugsites := v;
     A0_mat := A0_mat kd; B_mat := B_mat kd |}.

Definition set_A0_mat (v : Matrix) (kd : KinetoDynamics) : KinetoDynamics :=
  {| params := params kd; anaphase := anaphase kd;
     simulation_done := simulation_done kd; spbL := spbL kd; spbR := spbR kd;
     chromosomes := chromosomes kd; all_plugsites := all_plugsites kd;
     A0_mat := v; B_mat := B_mat kd |}.

Definition set_B_mat (v : Matrix) (kd : KinetoDynamics) : KinetoDynamics :=
  {| params := params kd; anaphase := anaphase kd;
     simulation_done := simulation_done kd; spbL := spbL kd; spbR := spbR kd;
     chromosomes := chromosomes kd; all_plugsites := all_plugsites kd;
     A0_mat := A0_mat kd; B_mat := v |}.

(** The attributes of a [Metaphase] instance the methods below use.  (The
    parameter trees, the random generator, [timelapse], [observations]
    and [chrom_colors] are read by none of them.) *)
Record Metaphase : Type :=
  { verbose : bool;
    KD : KinetoDynamics;
    num_steps : Z;
    report : list string;
    delay : Q }.

Definition set_KD (v : KinetoDynamics) (m : Metaphase) : Metaphase :=
  {| verbose := verbose m; KD := v; num_steps := num_steps m;
     report := report m; delay := delay m |}.

Definition set_report (v : list string) (m : Metaphase) : Metaphase :=
  {| verbose := verbose m; KD := KD m; num_steps := num_steps m;
     report := v; delay := delay m |}.

Definition set_delay (v : Q) (m : Metaphase) : Metaphase :=
  {| verbose := verbose m; KD := KD m; num_steps := num_steps m;
     report := report m; delay := v |}.

(** A call that leaves the driver: to the module logger, to [pprogress],
    or to one of the matrix and integration methods of [KD]. *)
Inductive Event : Type :=
| LogInfo (msg : string)
| LogWarning (msg : string)
| Pprogress (n : Z)
| CallOneStep (time_point : Z)
| CallCalcB
| CallTimeInvariantA.

(** The world a method runs in: the instance and the calls made so far,
    oldest first. *)
Record World : Type :=
  { self : Metaphase;
    trace : list Event }.

(** ** The interface of the physical collaborator *)

(** The methods of [KinetoDynamics], [Chromosome], [Centromere] and
    [PlugSite] that the driver calls.  [one_step] is the integrator: it may
    change anything in [KD] and may fail.  [calc_B] and [time_invariantA]
    compute a matrix from the current [KD]; the first is stored in the
    cache of [KD] by the call, the second is returned to the driver.  The
    methods of a chromosome or centromere read the shared plug sites.
    Every method but [one_step] is taken to return normally, and the
    trace of a world records the calls of [one_step], [calc_B] and
    [time_invariantA] only: a call of [set_plug_state] or of a history
    method shows in the object it is applied to, not in the trace. *)
Class Collaborator : Type :=
  { one_step : Z -> KinetoDynamics -> outcome unit * KinetoDynamics;
    calc_B : KinetoDynamics -> Matrix;
    time_invariantA : KinetoDynamics -> Matrix;
    is_attached : list PlugSite.t -> Centromere.t -> bool;
    erroneous : list PlugSite.t -> Chromosome.t -> list Z;
    set_plug_state : Z -> Z -> PlugSite.t -> PlugSite.t;
    calc_correct_history : list PlugSite.t -> Chromosome.t -> Chromosome.t;
    calc_erroneous_history : list PlugSite.t -> Chromosome.t -> Chromosome.t;
    calc_toa : list PlugSite.t -> Centromere.t -> Centromere.t }.

(** ** The monad of methods *)

Definition M (A : Type) : Type := World -> outcome A * World.

Definition ret {A : Type} (a : A) : M A := fun w => (Ok a, w).

Definition raise {A : Type} (e : exn) : M A := fun w => (Raise e, w).

Definition bind {A B : Type} (c : M A) (k : A -> M B) : M B :=
  fun w =>
    match c w with
    | (Ok a, w') => k a w'
    | (Raise e, w') => (Raise e, w')
    end.

Notation "x <~ c ;; k" := (bind c (fun x => k))
  (at level 100, c at level 99, k at level 200, right associativity).
Notation "c ;;; k" := (bind c (fun _ => k))
  (at level 100, k at level 200, right associativity).

Definition get_self : M Metaphase := fun w => (Ok (self w), w).

Definition modify_self (f : Metaphase -> Metaphase) : M unit :=
  fun w => (Ok tt, {| self := f (self w); trace := trace w |}).

Definition modify_KD (f : KinetoDynamics -> KinetoDynamics) : M unit :=
  modify_self (fun m => set_KD (f (KD m)) m).

Definition emit (e : Event) : M unit :=
  fun w => (Ok tt, {| self := self w; trace := trace w ++ [e] |}).

(** [self.KD.params[key]] *)
Definition get_param (key : string) : M Q :=
  m <~ get_self ;;
  match params (KD m) !! key with
  | Some v => ret v
  | None => raise (KeyError key)
  end.

(** [self.KD.params[key] = v] *)
Definition set_param (key : string) (v : Q) : M unit :=
  modify_KD (fun kd => set_params (<[key := v]> (params kd)) kd).

(** [self.report.append(s)] *)
Definition report_append (s : string) : M unit :=
  modify_self (fun m => set_report (report m ++ [s]) m).

(** [if b: c] *)
Definition when (b : bool) (c : M unit) : M unit := if b then c else ret tt.

(** [for x in l: acc = body(x, acc)], the loop-carried locals in [acc]. *)
Fixpoint for_ {A S : Type} (l : list A) (body : A -> S -> M S) (acc : S) : M S :=
  match l with
  | [] => ret acc
  | x :: l' => acc' <~ body x acc ;; for_ l' body acc'
  end.

(** ** The driver *)

Definition already_done_msg : string :=
  "A simulation is already done on this
                instance. Please create another Metaphase instance
                to launch a new simulation.".

Definition missed_shot_msg : string := "Missed shot, same player play again!".

(** [Metaphase.__init__], from the construction of [KD] on: [kd] is the
    value of [KinetoDynamics(params, ...)] and [absolute_dic] the dict
    [self.paramtree.absolute_dic]. *)
Definition init (verbose : bool) (absolute_dic : gmap string Q)
    (kd : KinetoDynamics) : outcome Metaphase :=
  match absolute_dic !! "dt" with
  | None => Raise (KeyError "dt")
  | Some dt =>
      match absolute_dic !! "span" with
      | None => Raise (KeyError "span")
      | Some duration =>
          match truediv duration dt with
          | Raise e => Raise e
          | Ok q =>
              Ok {| verbose := verbose;
                    KD := set_anaphase false kd;
                    num_steps := int q;
                    report := [];
                    delay := (-1)%Q |}
          end
      end
  end.

Section Driver.

Context `{Collaborator}.

(** [self.KD.one_step(time_point)] *)
Definition call_one_step (time_point : Z) : M unit :=
  emit (CallOneStep time_point) ;;;
  fun w =>
    let r := one_step time_point (KD (self w)) in
    (fst r, {| self := set_KD (snd r) (self w); trace := trace w |}).

(** [self.KD.calc_B()] *)
Definition call_calc_B : M unit :=
  emit CallCalcB ;;;
  modify_KD (fun kd => set_B_mat (calc_B kd) kd).

(** [self.KD.time_invariantA()] *)
Definition call_time_invariantA : M Matrix :=
  emit CallTimeInvariantA ;;;
  m <~ get_self ;;
  ret (time_invariantA (KD m)).

(** The loop of [_plug_checkpoint] over the chromosomes. *)
Fixpoint all_attached (sites : list PlugSite.t) (chs : list Chromosome.t) : bool :=
  match chs with
  | [] => true
  | ch :: chs' =>
      if negb (is_attached sites (Chromosome.cen_A ch))
         || negb (is_attached sites (Chromosome.cen_B ch))
      then false
      else all_attached sites chs'
  end.

(** [Metaphase._plug_checkpoint] *)
Definition _plug_checkpoint : M bool :=
  sac <~ get_param "sac" ;;
  if eq sac 0 then ret true
  else
    m <~ get_self ;;
    ret (all_attached (all_plugsites (KD m)) (chromosomes (KD m))).

(** The loop of [_mero_checkpoint] over the chromosomes, from
    [nb_mero = 0]. *)
Definition count_mero (kd : KinetoDynamics) : Z :=
  fold_left
    (fun nb_mero ch =>
       if np_any (erroneous (all_plugsites kd) ch)
       then nb_mero + sum (erroneous (all_plugsites kd) ch)
       else nb_mero)
    (chromosomes kd) 0.

(** [Metaphase._mero_checkpoint] *)
Definition _mero_checkpoint : M Z :=
  m <~ get_self ;;
  ret (count_mero (KD m)).

Definition mero_msg (nb_mero : Z) : string :=
  "There were " ++ str nb_mero ++ " merotelic MT at anaphase onset".

(** [Metaphase._anaphase_test] *)
Definition _anaphase_test (time_point : Z) : M bool :=
  p <~ get_param "t_A" ;;
  let t_A := int p in
  dt <~ get_param "dt" ;;
  let t := (inject_Z time_point * dt)%Q in
  m <~ get_self ;;
  if anaphase (KD m) then ret true
  else
    go <~ (if le (inject_Z t_A) t then _plug_checkpoint else ret false) ;;
    if go then
      modify_self (set_delay (t - inject_Z t_A)%Q) ;;;
      set_param "kappa_c" 0%Q ;;;
      call_calc_B ;;;
      nb_mero <~ _mero_checkpoint ;;
      when (negb (nb_mero =? 0)) (report_append (mero_msg nb_mero)) ;;;
      modify_KD (set_anaphase true) ;;;
      ret true
    else ret false.

(** The body of the loop of [_ablation] for one plug site. *)
Definition ablate (pos : Q) (time_point : Z) (plugsite : PlugSite.t) : PlugSite.t :=
  if lt pos (PlugSite.pos plugsite) && (PlugSite.plug_state plugsite =? -1)
  then set_plug_state 0 time_point plugsite
  else if lt (PlugSite.pos plugsite) pos && (PlugSite.plug_state plugsite =? 1)
  then set_plug_state 0 time_point plugsite
  else plugsite.

(** [Metaphase._ablation] *)
Definition _ablation (time_point : Z) (pos : option Q) : M unit :=
  m <~ get_self ;;
  let pos := match pos with
             | None => Spb.pos (spbR (KD m))
             | Some x => x
             end in
  if negb (le (Spb.pos (spbL (KD m))) pos && le pos (Spb.pos (spbR (KD m))))
  then emit (LogWarning missed_shot_msg)
  else
    set_param "Fmz" 0%Q ;;;
    set_param "k_a" 0%Q ;;;
    set_param "k_d0" 0%Q ;;;
    A <~ call_time_invariantA ;;
    modify_KD (set_A0_mat A) ;;;
    modify_KD (fun kd =>
      set_all_plugsites (map (ablate pos time_point) (all_plugsites kd)) kd).

(** [ablat == time_point] *)
Definition ablat_now (ablat : option Q) (time_point : Z) : bool :=
  match ablat with
  | None => false
  | Some a => eq a (inject_Z time_point)
  end.

Definition onset_msg (time_point n : Z) : string :=
  "Anaphase onset at " ++ str time_point ++ " / " ++ str n.

(** One turn of the loop of [simul]; [acc] holds the locals [bef] and
    [log_anaphase_onset]. *)
Definition simul_step (ablat ablat_pos : option Q) (time_point : Z)
    (acc : Z * bool) : M (Z * bool) :=
  m <~ get_self ;;
  let progress :=
    int (inject_Z time_point * 100 / inject_Z (num_steps m))%Q in
  bef <~ (if verbose m && negb (progress =? fst acc)
          then emit (Pprogress progress) ;;; ret progress
          else ret (fst acc)) ;;
  when (ablat_now ablat time_point)
    (when (verbose m) (emit (LogInfo "Performing ablation")) ;;;
     _ablation time_point ablat_pos) ;;;
  a <~ _anaphase_test time_point ;;
  log_anaphase_onset <~
    (if a && negb (snd acc)
     then emit (Pprogress (-1)) ;;;
          when (verbose m)
            (emit (LogInfo (onset_msg time_point (num_steps m)))) ;;;
          ret true
     else ret (snd acc)) ;;
  call_one_step time_point ;;;
  ret (bef, log_anaphase_onset).

(** The body of the closing loop of [simul] for one chromosome. *)
Definition finalize (sites : list PlugSite.t) (ch : Chromosome.t) : Chromosome.t :=
  let ch1 := calc_correct_history sites ch in
  let ch2 := calc_erroneous_history sites ch1 in
  let ch3 := Chromosome.set_cen_A (calc_toa sites (Chromosome.cen_A ch2)) ch2 in
  Chromosome.set_cen_B (calc_toa sites (Chromosome.cen_B ch3)) ch3.

Definition delay_msg (delay : Q) : string :=
  "delay = " ++ fmt_d 2 (int delay) ++ " seconds".

(** [Metaphase.simul] *)
Definition simul (ablat ablat_pos : option Q) : M unit :=
  m <~ get_self ;;
  if simulation_done (KD m) then raise (SimulationAlreadyDone already_done_msg)
  else
    kappa_c <~ get_param "kappa_c" ;;
    when (verbose m) (emit (LogInfo "Running simulation")) ;;;
    for_ (range 1 (num_steps m)) (simul_step ablat ablat_pos) (0, false) ;;;
    when (verbose m) (emit (Pprogress (-1))) ;;;
    when (verbose m) (emit (LogInfo "Simulation done")) ;;;
    set_param "kappa_c" kappa_c ;;;
    m' <~ get_self ;;
    report_append (delay_msg (delay m')) ;;;
    modify_KD (fun kd =>
      set_chromosomes (map (finalize (all_plugsites kd)) (chromosomes kd)) kd).

End Driver.

(** ** Observations on a trace *)

(** The time points of the calls to [KD.one_step], oldest first. *)
Definition one_step_calls (tr : list Event) : list Z :=
  flat_map (fun e => match e with CallOneStep t => [t] | _ => [] end) tr.

(** The number of calls to [KD.calc_B]. *)
Definition calc_B_calls (tr : list Event) : nat :=
  List.length (List.filter (fun e => match e with CallCalcB => true | _ => false end) tr).

(** The lines given to [log.warning]. *)
Definition warnings (tr : list Event) : list string :=
  flat_map (fun e => match e with LogWarning s => [s] | _ => [] end) tr.

(** ** A stand-in collaborator and concrete instances *)

(** A small collaborator to run the driver on concrete instances: an
    integrator that moves nothing, a centromere attached when one of its
    plug sites is, an erroneous count of the sites of [cen_A] bound to the
    left pole and of [cen_B] bound to the right one, and a
    [set_plug_state] that stores the state and records the transition. *)
Module Stub.

Definition site_state (sites : list PlugSite.t) (i : nat) : Z :=
  match sites !! i with
  | Some s => PlugSite.plug_state s
  | None => 0
  end.

Definition count_state (v : Z) (sites : list PlugSite.t) (c : Centromere.t) : Z :=
  Z.of_nat (List.length
    (List.filter (fun i => site_state sites i =? v) (Centromere.plugsites c))).

#[export] Instance collaborator : Collaborator :=
  {| one_step := fun _ kd => (Ok tt, kd);
     calc_B := fun kd =>
       [[default 0%Q (params kd !! "kappa_c")]];
     time_invariantA := fun kd =>
       [[default 0%Q (params kd !! "k_a"); default 0%Q (params kd !! "k_d0")]];
     is_attached := fun sites c =>
       existsb (fun i => negb (site_state sites i =? 0)) (Centromere.plugsites c);
     erroneous := fun sites ch =>
       [count_state (-1) sites (Chromosome.cen_A ch);
        count_state 1 sites (Chromosome.cen_B ch)];
     set_plug_state := fun v time_point s =>
       {| PlugSite.site_id := PlugSite.site_id s;
          PlugSite.pos := PlugSite.pos s;
          PlugSite.plug_state := v;
          PlugSite.state_hist := PlugSite.state_hist s ++ [(time_point, v)] |};
     calc_correct_history := fun _ ch => ch;
     calc_erroneous_history := fun _ ch => ch;
     calc_toa := fun _ c => c |}.

Definition site (i : Z) (x : Q) (st : Z) : PlugSite.t :=
  {| PlugSite.site_id := i; PlugSite.pos := x;
     PlugSite.plug_state := st; PlugSite.state_hist := [] |}.

Definition chromosome (a b : Q) : Chromosome.t :=
  {| Chromosome.ch_id := 0;
     Chromosome.cen_A :=
       {| Centromere.tag := "A"; Centromere.pos := a;
          Centromere.plugsites := [0%nat; 1%nat]; Centromere.toa := 0%Q |};
     Chromosome.cen_B :=
       {| Centromere.tag := "B"; Centromere.pos := b;
          Centromere.plugsites := [2%nat; 3%nat]; Centromere.toa := 0%Q |};
     Chromosome.correct_history := [];
     Chromosome.erroneous_history := [] |}.

(** One chromosome between poles at -1 and 1; its four plug sites sit
    at -1/2, -1/4, 1/4, 1/2, in the states [s0] to [s3]. *)
Definition kd (prm : gmap string Q) (s0 s1 s2 s3 : Z) : KinetoDynamics :=
  {| params := prm;
     anaphase := false;
     simulation_done := false;
     spbL := {| Spb.pos := (-1)%Q; Spb.traj := [] |};
     spbR := {| Spb.pos := 1%Q; Spb.traj := [] |};
     chromosomes := [chromosome (-3 # 8) (3 # 8)];
     all_plugsites :=
       [site 0 (-1 # 2) s0; site 1 (-1 # 4) s1; site 2 (1 # 4) s2; site 3 (1 # 2) s3];
     A0_mat := [];
     B_mat := [] |}.

(** Parameters: [dt = 10], [span = 50], anaphase threshold [t_A]. *)
Definition prm (sac t_A : Q) : gmap string Q :=
  <["dt" := 10%Q]> (<["span" := 50%Q]> (<["t_A" := t_A]> (<["sac" := sac]>
  (<["kappa_c" := (1 # 2)%Q]> (<["Fmz" := 1%Q]> (<["k_a" := (3 # 50)%Q]>
  (<["k_d0" := (1 # 10)%Q]> ∅))))))).

Definition world_of (m : outcome Metaphase) : World :=
  match m with
  | Ok m => {| self := m; trace := [] |}
  | Raise _ =>
      {| self := {| verbose := false; KD := kd ∅ 0 0 0 0; num_steps := 0;
                    report := []; delay := 0%Q |};
         trace := [] |}
  end.

(** A verbose instance, checkpoint on, threshold at 20 s, both
    centromeres attached, one plug site of [cen_A] bound to the wrong
    pole. *)
Definition attached : World :=
  world_of (init true (prm 1 20) (kd (prm 1 20) (-1) 1 1 1)).

(** A quiet instance, checkpoint on, threshold at 20 s, [cen_B]
    unattached. *)
Definition detached : World :=
  world_of (init false (prm 1 20) (kd (prm 1 20) 1 1 0 0)).

(** A world whose simulation is flagged as done. *)
Definition done_ (w : World) : World :=
  {| self :=
       set_KD
         {| params := params (KD (self w)); anaphase := anaphase (KD (self w));
            simulation_done := true;
            spbL := spbL (KD (self w)); spbR := spbR (KD (self w));
            chromosomes := chromosomes (KD (self w));
            all_plugsites := all_plugsites (KD (self w));
            A0_mat := A0_mat (KD (self w)); B_mat := B_mat (KD (self w)) |}
         (self w);
     trace := trace w |}.

(** The instance [attached] after its run: anaphase has begun. *)
Definition latched : World := snd (simul None (Some 0%Q) attached).

(** A configuration with a negative span. *)
Definition backwards : outcome Metaphase :=
  init false (<["dt" := 10%Q]> (<["span" := (-25)%Q]> ∅)) (kd ∅ 0 0 0 0).

End Stub.

(** ** Notions used in the statements *)

(** The position [_ablation] aims at: its argument, or the right pole
    when the argument is [None]. *)
Definition aim (m : Metaphase) (pos : option Q) : Q :=
  match pos with
  | None => Spb.pos (spbR (KD m))
  | Some x => x
  end.

(** [pos] lies in the closed interval between the poles. *)
Definition between_poles (m : Metaphase) (x : Q) : Prop :=
  (Spb.pos (spbL (KD m)) <= x)%Q /\ (x <= Spb.pos (spbR (KD m)))%Q.

Section Notions.

Context `{Collaborator}.

(** Successive calls of [_anaphase_test], one per time point of [tps];
    the result is the conjunction of what the calls returned. *)
Definition anaphase_tests (tps : list Z) : M bool :=
  for_ tps (fun time_point acc => b <~ _anaphase_test time_point ;; ret (acc && b)) true.

(** Both centromeres of [ch] are attached. *)
Definition both_attached (m : Metaphase) (ch : Chromosome.t) : Prop :=
  is_attached (all_plugsites (KD m)) (Chromosome.cen_A ch) = true /\
  is_attached (all_plugsites (KD m)) (Chromosome.cen_B ch) = true.

(** What a piece of the loop of [simul] that returned normally has
    done between the worlds [w] and [w']: it has called [one_step] at
    the time points [l], in this order; it has left [verbose] and
    [num_steps] alone; and unless it has called [calc_B], it has left the
    recorded delay and the report alone. *)
Definition advances (l : list Z) (w w' : World) : Prop :=
  verbose (self w') = verbose (self w) /\
  num_steps (self w') = num_steps (self w) /\
  one_step_calls (trace w') = (one_step_calls (trace w) ++ l)%list /\
  (calc_B_calls (trace w) <= calc_B_calls (trace w'))%nat /\
  (calc_B_calls (trace w') = calc_B_calls (trace w) ->
     delay (self w') = delay (self w) /\ report (self w') = report (self w)).

Definition post {A : Type} (c : M A) (l : list Z) : Prop :=
  forall w a w', c w = (Ok a, w') -> advances l w w'.

(** No call of [calc_B] has been made between [w] and [w'].  The
    driver calls [calc_B] in one place, the branch of [_anaphase_test]
    where the transition fires, so this says that the transition has
    not fired in between. *)
Definition never_fired (w w' : World) : Prop :=
  calc_B_calls (trace w') = calc_B_calls (trace w).

(** The parameters the loop of [simul] reads are present. *)
Definition keyed (kd : KinetoDynamics) : Prop :=
  is_Some (params kd !! "t_A") /\ is_Some (params kd !! "dt") /\
  is_Some (params kd !! "sac").

(** An integrator that returns normally and keeps these parameters. *)
Definition steady : Prop :=
  forall (time_point : Z) (kd : KinetoDynamics),
    fst (one_step time_point kd) = Ok tt /\
    (keyed kd -> keyed (snd (one_step time_point kd))).

(** A computation that returns normally from a world with these
    parameters, and keeps them. *)
Definition runs {A : Type} (c : M A) : Prop :=
  forall w, keyed (KD (self w)) ->
    exists a w', c w = (Ok a, w') /\ keyed (KD (self w')).

End Notions.

(** ** The rest of the driver *)

(** Python's [min] and [max] on two numbers: the first argument is kept
    unless the second is strictly smaller (larger). *)
Module Builtin.

Definition min (x y : Q) : Q := if lt y x then y else x.

Definition max (x y : Q) : Q := if lt x y then y else x.

End Builtin.

(** The loop of [_mplate_checkpoint] over the chromosomes. *)
Fixpoint mplate_loop (chs : list Chromosome.t) : bool :=
  match chs with
  | [] => true
  | ch :: chs' =>
      let ktR := Centromere.pos (Chromosome.cen_A ch) in
      let ktL := Centromere.pos (Chromosome.cen_B ch) in
      if le (Builtin.min ktR ktL) 0 && le 0 (Builtin.max ktR ktL)
      then true
      else mplate_loop chs'
  end.

(** [Metaphase._mplate_checkpoint] *)
Definition _mplate_checkpoint : M bool :=
  m <~ get_self ;;
  ret (mplate_loop (chromosomes (KD m))).

(** The chromosome pair straddles the spindle centre: what the test in
    [_mplate_checkpoint] computes. *)
Definition straddles (ch : Chromosome.t) : bool :=
  le (Builtin.min (Centromere.pos (Chromosome.cen_A ch))
                  (Centromere.pos (Chromosome.cen_B ch))) 0
  && le 0 (Builtin.max (Centromere.pos (Chromosome.cen_A ch))
                       (Centromere.pos (Chromosome.cen_B ch))).

(** The test of [get_attachment] for one class: the predicate on the
    state or on its left-right permutation. *)
Definition either_side (P : list Z -> bool) (a b c d : Z) : bool :=
  P [a; b; c; d] || P [b; a; d; c].

(** *** The shared random state *)

Section RandomState.

(** The state of a [numpy.random.RandomState] generator. *)
Variable State : Type.

(** [Metaphase.get_random_state], a class method.  [RANDOM_STATE] is the
    class attribute, [None] until the first call; [entropy] is the state
    the fresh generator [np.random.RandomState()] is seeded with.  The
    result is the state of the generator returned and the class
    attribute after the call.  (A stored state is a non-empty tuple, so
    the test [not cls.RANDOM_STATE] fails on it.) *)
Definition get_random_state (entropy : State) (RANDOM_STATE : option State)
  : State * option State :=
  match RANDOM_STATE with
  | None => (entropy, Some entropy)
  | Some st => (st, Some st)
  end.

(** The choice of [self.prng] in [Metaphase.__init__]. *)
Definition choose_prng (keep_same_random_seed : bool) (entropy : State)
    (RANDOM_STATE : option State) : State * option State :=
  if keep_same_random_seed then get_random_state entropy RANDOM_STATE
  else (entropy, RANDOM_STATE).

(** Successive constructions, each with its [keep_same_random_seed] and
    the entropy of its fresh generator: the states of the generators of
    the instances, in order, and the class attribute at the end. *)
Fixpoint constructions (calls : list (bool * State)) (RANDOM_STATE : option State)
  : list State * option State :=
  match calls with
  | [] => ([], RANDOM_STATE)
  | (keep, entropy) :: calls' =>
      let r := choose_prng keep entropy RANDOM_STATE in
      let rs := constructions calls' (snd r) in
      (fst r :: fst rs, snd rs)
  end.

End RandomState.

Arguments get_random_state {State} entropy RANDOM_STATE.
Arguments choose_prng {State} keep_same_random_seed entropy RANDOM_STATE.
Arguments constructions {State} calls RANDOM_STATE.

(** *** Notions for whole runs *)

(** The world after one more call. *)
Definition log_ (e : Event) (w : World) : World :=
  {| self := self w; trace := trace w ++ [e] |}.

(** The number of laser shots: each call of [_ablation] either warns of
    a miss or calls [time_invariantA], and nothing else does. *)
Definition shots (tr : list Event) : nat :=
  List.length
    (List.filter
       (fun e => match e with
                 | LogWarning _ | CallTimeInvariantA => true
                 | _ => false
                 end) tr).

(** What a quiet run may still do: anything but a [log.info] and a
    progress display other than [pprogress(-1)]. *)
Definition quiet_event (e : Event) : bool :=
  match e with
  | LogInfo _ => false
  | Pprogress n => n =? -1
  | _ => true
  end.

(** The ablation time is one of the time points [1 .. n - 1] the loop
    visits. *)
Definition ablat_visited (ablat : option Q) (n : Z) : bool :=
  existsb (fun time_point =>
             match ablat with
             | None => false
             | Some a => eq a (inject_Z time_point)
             end) (range 1 n).

(** The keys whose absence stops the loop of [simul]. *)
Definition loop_keys : list string := ["t_A"; "dt"; "sac"].

Section MoreNotions.

Context `{Collaborator}.

(** The plain total of the erroneous counts of all chromosomes. *)
Definition erroneous_total (kd : KinetoDynamics) : Z :=
  sum (concat (map (erroneous (all_plugsites kd)) (chromosomes kd))).

(** The erroneous counts are counts: none is negative. *)
Definition erroneous_are_counts (kd : KinetoDynamics) : Prop :=
  forall (ch : Chromosome.t) (x : Z),
    In ch (chromosomes kd) -> In x (erroneous (all_plugsites kd) ch) -> 0 <= x.

(** [set_plug_state] stores the state it is given and leaves the site
    where it is. *)
Definition set_plug_state_lawful : Prop :=
  forall (v time_point : Z) (s : PlugSite.t),
    PlugSite.plug_state (set_plug_state v time_point s) = v /\
    PlugSite.pos (set_plug_state v time_point s) = PlugSite.pos s.



(** The integrator never clears the anaphase latch. *)
Definition keeps_latch : Prop :=
  forall (time_point : Z) (kd : KinetoDynamics),
    anaphase kd = true -> anaphase (snd (one_step time_point kd)) = true.

(** The merotelic lines: what [_anaphase_test] may append to the report. *)
Definition mero_line (s : string) : Prop :=
  exists nb_mero : Z, nb_mero <> 0 /\ s = mero_msg nb_mero.

(** Between [w] and [w'] the report has only grown, by merotelic lines,
    at most one for each call of [calc_B]; [verbose] is as it was. *)
Definition report_grows (w w' : World) : Prop :=
  verbose (self w') = verbose (self w) /\
  (calc_B_calls (trace w) <= calc_B_calls (trace w'))%nat /\
  exists ls : list string,
    report (self w') = (report (self w) ++ ls)%list /\
    (List.length ls <= calc_B_calls (trace w') - calc_B_calls (trace w))%nat /\
    Forall mero_line ls.

(** Between [w] and [w'] the transition has fired at most once, and not
    at all if [w] was latched; once fired the latch is set and the
    recorded delay is not negative; not fired, the delay is as it was. *)
Definition fires_once (w w' : World) : Prop :=
  verbose (self w') = verbose (self w) /\
  (calc_B_calls (trace w) <= calc_B_calls (trace w'))%nat /\
  (calc_B_calls (trace w') <= calc_B_calls (trace w) + 1)%nat /\
  (anaphase (KD (self w)) = true ->
     anaphase (KD (self w')) = true /\
     calc_B_calls (trace w') = calc_B_calls (trace w)) /\
  (calc_B_calls (trace w') = (calc_B_calls (trace w) + 1)%nat ->
     anaphase (KD (self w')) = true /\ (0 <= delay (self w'))%Q) /\
  (calc_B_calls (trace w') = calc_B_calls (trace w) ->
     delay (self w') = delay (self w)).

(** Between [w] and [w'] a quiet instance has stayed quiet. *)
Definition stays_quiet (w w' : World) : Prop :=
  verbose (self w') = verbose (self w) /\
  (verbose (self w) = false ->
   exists evs : list Event,
     trace w' = (trace w ++ evs)%list /\ forallb quiet_event evs = true).

End MoreNotions.

(** More concrete instances for the stand-in collaborator. *)
Module Cases.

(** The instance [Stub.attached] with one parameter removed. *)
Definition without (key : string) : World :=
  Stub.world_of
    (init true (Stub.prm 1 20) (Stub.kd (delete key (Stub.prm 1 20)) (-1) 1 1 1)).

(** The instance [Stub.attached] with the threshold [t_A] at 20.9 s. *)
Definition fractional_threshold : World :=
  Stub.world_of
    (init true (Stub.prm 1 (209 # 10)) (Stub.kd (Stub.prm 1 (209 # 10)) (-1) 1 1 1)).

(** Three constructions: two that keep the random seed around one that
    does not, with the entropy 11, 22 and 33. *)
Definition three_instances : list (bool * nat) :=
  [(true, 11%nat); (false, 22%nat); (true, 33%nat)].

End Cases.

(** * Properties *)

(** ** Python values *)

Lemma int_floor (x : Q) : (0 <= x)%Q -> int x = Qfloor x.
Proof.
  destruct x as [n d]. unfold Qle, int, Qfloor. simpl. intros Hn.
  apply Z.quot_div_nonneg; lia.
Qed.

Lemma length_range (lo hi : Z) : Z.of_nat (List.length (range lo hi)) = Z.max 0 (hi - lo).
Proof. unfold range. rewrite length_map, length_seq. lia. Qed.

Lemma lookup_map {A B : Type} (f : A -> B) (l : list A) (i : nat) :
  map f l !! i = option_map f (l !! i).
Proof.
  revert i. induction l as [|a l IH]; intros [|i]; simpl; try reflexivity.
  apply IH.
Qed.

(** ** The attachment classifier *)

Module AttachmentFacts.
Import Attachment.

(** C4: the classifier is invariant under the left-right relabeling:
    on every four-element vector [[a; b; c; d]] it returns what it
    returns on [[b; a; d; c]]. *)
Theorem get_attachment_symmetric (a b c d : Z) :
  get_attachment [a; b; c; d] = get_attachment [b; a; d; c].
Proof.
  unfold get_attachment, permute, getitem. simpl.
  unfold amphitelic, monotelic, syntelic, merotelic, unattached, at_. simpl.
  destruct a, b, c, d; reflexivity.
Qed.

(** C1, as the code has it: on [[0; 1; 1; 0]] the classifier returns
    index 2, the label syntelic, because the left-right permutation
    [[1; 0; 0; 1]] satisfies the syntelic predicate, and neither vector
    satisfies the two predicates tried before it. *)
Theorem classify_0110_syntelic :
  permute [0; 1; 1; 0] = Ok [1; 0; 0; 1] /\
  syntelic [1; 0; 0; 1] = true /\
  amphitelic [0; 1; 1; 0] = false /\ amphitelic [1; 0; 0; 1] = false /\
  monotelic [0; 1; 1; 0] = false /\ monotelic [1; 0; 0; 1] = false /\
  get_attachment [0; 1; 1; 0] = Ok 2 /\
  label [0; 1; 1; 0] = Ok "syntelic".
Proof. repeat split; reflexivity. Qed.

(** C1, as stated, fails: the classifier does not return index 5, the
    label error, on [[0; 1; 1; 0]], and the permutation does satisfy
    one of the predicates. *)
Lemma classify_0110_not_error :
  get_attachment [0; 1; 1; 0] <> Ok 5 /\
  label [0; 1; 1; 0] <> Ok "error" /\
  syntelic [1; 0; 0; 1] <> false.
Proof. repeat split; discriminate. Qed.

(** The label error is reachable: a single erroneous attachment. *)
Lemma get_attachment_0010 : label [0; 0; 1; 0] = Ok "error".
Proof. reflexivity. Qed.

(** The five other scenarios of the classification. *)
Lemma get_attachment_scenarios :
  map label [[2; 3; 0; 0]; [2; 0; 0; 0]; [2; 0; 0; 3]; [2; 0; 1; 0]; [0; 0; 0; 0]]
  = map Ok ["amphitelic"; "monotelic"; "syntelic"; "merotelic"; "unattached"].
Proof. reflexivity. Qed.

(** A state shorter than four raises [IndexError]. *)
Lemma get_attachment_short (a b c : Z) : get_attachment [a; b; c] = Raise IndexError.
Proof. reflexivity. Qed.

End AttachmentFacts.

(** ** The driver *)

Section DriverFacts.

Context `{Collaborator}.

Implicit Types (w : World) (time_point : Z) (pos ablat ablat_pos : option Q).

(** *** Reading parameters *)

Lemma get_param_Some (key : string) (v : Q) w :
  params (KD (self w)) !! key = Some v -> get_param key w = (Ok v, w).
Proof. intros Hk. unfold get_param, bind, get_self, ret. now rewrite Hk. Qed.

Lemma get_param_None (key : string) w :
  params (KD (self w)) !! key = None -> get_param key w = (Raise (KeyError key), w).
Proof. intros Hk. unfold get_param, bind, get_self, raise. now rewrite Hk. Qed.

Lemma get_param_world (key : string) w : snd (get_param key w) = w.
Proof.
  destruct (params (KD (self w)) !! key) as [v|] eqn:Hk.
  - now rewrite (get_param_Some _ _ _ Hk).
  - now rewrite (get_param_None _ _ Hk).
Qed.

(** *** The spindle-assembly checkpoint *)

Lemma all_attached_spec (sites : list PlugSite.t) (chs : list Chromosome.t) :
  all_attached sites chs = true <->
  (forall ch, In ch chs ->
     is_attached sites (Chromosome.cen_A ch) = true /\
     is_attached sites (Chromosome.cen_B ch) = true).
Proof.
  induction chs as [|ch chs IH]; simpl.
  - split; [intros _ ch [] | reflexivity].
  - destruct (is_attached sites (Chromosome.cen_A ch)) eqn:HA;
      destruct (is_attached sites (Chromosome.cen_B ch)) eqn:HB; simpl.
    + rewrite IH. split.
      * intros Hall ch' [<-|Hin]; [now rewrite HA, HB | now apply Hall].
      * intros Hall ch' Hin. apply Hall. now right.
    + split; [discriminate|]. intros Hall.
      destruct (Hall ch (or_introl eq_refl)) as [_ Hb]. congruence.
    + split; [discriminate|]. intros Hall.
      destruct (Hall ch (or_introl eq_refl)) as [Ha _]. congruence.
    + split; [discriminate|]. intros Hall.
      destruct (Hall ch (or_introl eq_refl)) as [Ha _]. congruence.
Qed.

Lemma plug_checkpoint_world w : snd (_plug_checkpoint w) = w.
Proof.
  unfold _plug_checkpoint, bind.
  destruct (get_param "sac" w) as [[sac|e] w1] eqn:Hg;
    pose proof (get_param_world "sac" w) as Hw; rewrite Hg in Hw; simpl in Hw; subst w1.
  - destruct (eq sac 0); reflexivity.
  - reflexivity.
Qed.

(** C8: with [sac] equal to 0 the spindle-assembly checkpoint passes
    whatever the attachments; with [sac] nonzero it returns a boolean
    that is true exactly when every chromosome has both centromeres
    attached, so that one unattached centromere makes it fail.  The
    world is left as it was. *)
Theorem plug_checkpoint_spec w (sac : Q) :
  params (KD (self w)) !! "sac" = Some sac ->
  ((sac == 0)%Q -> _plug_checkpoint w = (Ok true, w)) /\
  (~ (sac == 0)%Q ->
     exists b : bool,
       _plug_checkpoint w = (Ok b, w) /\
       (b = true <-> forall ch, In ch (chromosomes (KD (self w))) -> both_attached (self w) ch) /\
       (forall ch, In ch (chromosomes (KD (self w))) ->
          is_attached (all_plugsites (KD (self w))) (Chromosome.cen_A ch) = false \/
          is_attached (all_plugsites (KD (self w))) (Chromosome.cen_B ch) = false ->
          b = false)).
Proof.
  intros Hsac. unfold _plug_checkpoint, bind.
  rewrite (get_param_Some _ _ _ Hsac). unfold eq.
  split.
  - intros H0. apply Qeq_bool_iff in H0. now rewrite H0.
  - intros Hn. destruct (Qeq_bool sac 0) eqn:Hq.
    + exfalso. apply Hn. now apply Qeq_bool_iff.
    + unfold get_self, ret. simpl.
      exists (all_attached (all_plugsites (KD (self w))) (chromosomes (KD (self w)))).
      split; [reflexivity|]. split.
      * apply all_attached_spec.
      * intros ch Hin Hor.
        destruct (all_attached _ _) eqn:Ha; [|reflexivity].
        destruct (proj1 (all_attached_spec _ _) Ha ch Hin) as [Ha1 Ha2].
        destruct Hor; congruence.
Qed.

(** *** The anaphase latch *)

(** One call on a latched instance. *)
Lemma anaphase_test_latched time_point w (p dt : Q) :
  params (KD (self w)) !! "t_A" = Some p ->
  params (KD (self w)) !! "dt" = Some dt ->
  anaphase (KD (self w)) = true ->
  _anaphase_test time_point w = (Ok true, w).
Proof.
  intros Hp Hdt Ha. unfold _anaphase_test.
  unfold bind at 1. rewrite (get_param_Some _ _ _ Hp).
  unfold bind at 1. rewrite (get_param_Some _ _ _ Hdt).
  unfold bind, get_self. now rewrite Ha.
Qed.

(** C5: once the anaphase flag is true, a call of the anaphase test at
    any time point returns true and leaves the whole world as it was:
    parameters, cached matrices, recorded delay, report and the trace
    of calls to the collaborator (no [calc_B]).  The same holds for any
    sequence of calls, so the latch never reverts.  The parameters
    [t_A] and [dt], which the method reads before it tests the flag,
    are present. *)
Theorem anaphase_latch_idempotent w (p dt : Q) :
  params (KD (self w)) !! "t_A" = Some p ->
  params (KD (self w)) !! "dt" = Some dt ->
  anaphase (KD (self w)) = true ->
  (forall time_point, _anaphase_test time_point w = (Ok true, w)) /\
  (forall tps : list Z, anaphase_tests tps w = (Ok true, w)).
Proof.
  intros Hp Hdt Ha.
  assert (Hone : forall time_point, _anaphase_test time_point w = (Ok true, w))
    by (intros tp; exact (anaphase_test_latched tp w p dt Hp Hdt Ha)).
  split; [exact Hone|].
  intros tps. unfold anaphase_tests.
  induction tps as [|tp tps IH]; [reflexivity|].
  cbn [for_]. unfold bind at 1. unfold bind at 1. rewrite Hone.
  unfold ret at 1. simpl. exact IH.
Qed.

(** *** Running twice *)

(** C6: on an instance whose simulation is done, [simul] raises
    [SimulationAlreadyDone] whatever the ablation arguments, and the
    world it leaves is the one it found: no step ran, no call was made,
    nothing of the instance changed. *)
Theorem simul_already_done ablat ablat_pos w :
  simulation_done (KD (self w)) = true ->
  simul ablat ablat_pos w = (Raise (SimulationAlreadyDone already_done_msg), w).
Proof.
  intros Hd. unfold simul, bind, get_self. now rewrite Hd.
Qed.

(** *** The anaphase transition *)

Lemma Qle_bool_false (x y : Q) : Qle_bool x y = false -> ~ (x <= y)%Q.
Proof. intros Hb Hle. apply Qle_bool_iff in Hle. congruence. Qed.

(** The world after the transition has fired at time [t]. *)
Lemma anaphase_test_fires time_point w (p dt : Q) :
  params (KD (self w)) !! "t_A" = Some p ->
  params (KD (self w)) !! "dt" = Some dt ->
  anaphase (KD (self w)) = false ->
  (inject_Z (int p) <= inject_Z time_point * dt)%Q ->
  _plug_checkpoint w = (Ok true, w) ->
  let kd0 := set_params (<["kappa_c" := 0%Q]> (params (KD (self w)))) (KD (self w)) in
  let nb_mero := count_mero (KD (self w)) in
  _anaphase_test time_point w =
  (Ok true,
   {| self :=
        {| verbose := verbose (self w);
           KD := set_anaphase true (set_B_mat (calc_B kd0) kd0);
           num_steps := num_steps (self w);
           report :=
             if nb_mero =? 0 then report (self w)
             else report (self w) ++ [mero_msg nb_mero];
           delay := (inject_Z time_point * dt - inject_Z (int p))%Q |};
      trace := trace w ++ [CallCalcB] |}).
Proof.
  intros Hp Hdt Ha Hle Hpc kd0 nb_mero. unfold _anaphase_test.
  unfold bind at 1. rewrite (get_param_Some _ _ _ Hp).
  unfold bind at 1. rewrite (get_param_Some _ _ _ Hdt).
  unfold bind at 1. unfold get_self at 1. rewrite Ha.
  unfold le. apply Qle_bool_iff in Hle. rewrite Hle.
  unfold bind at 1. rewrite Hpc.
  subst nb_mero kd0.
  unfold call_calc_B, set_param, modify_KD, _mero_checkpoint, report_append,
    modify_self, emit, get_self, when, bind, ret, count_mero.
  cbn [self trace KD set_delay set_KD set_params set_B_mat set_anaphase
       chromosomes all_plugsites params report verbose num_steps delay].
  destruct (_ =? 0); reflexivity.
Qed.

(** The outcome when the transition does not fire: the world is left
    as it was, and the call returns false or lets the [KeyError] of the
    checkpoint through. *)
Lemma anaphase_test_waits time_point w (p dt : Q) :
  params (KD (self w)) !! "t_A" = Some p ->
  params (KD (self w)) !! "dt" = Some dt ->
  anaphase (KD (self w)) = false ->
  ~ ((inject_Z (int p) <= inject_Z time_point * dt)%Q /\
     fst (_plug_checkpoint w) = Ok true) ->
  exists r, _anaphase_test time_point w = (r, w) /\ r <> Ok true.
Proof.
  intros Hp Hdt Ha Hno. unfold _anaphase_test.
  unfold bind at 1. rewrite (get_param_Some _ _ _ Hp).
  unfold bind at 1. rewrite (get_param_Some _ _ _ Hdt).
  unfold bind at 1. unfold get_self at 1. rewrite Ha.
  unfold le. destruct (Qle_bool _ _) eqn:Hle.
  - apply Qle_bool_iff in Hle.
    unfold bind at 1.
    pose proof (plug_checkpoint_world w) as Hw.
    destruct (_plug_checkpoint w) as [[[|]|e] w1] eqn:Hpc; simpl in Hw; subst w1.
    + exfalso. apply Hno. split; [exact Hle | reflexivity].
    + exists (Ok false). split; [reflexivity | discriminate].
    + exists (Raise e). split; [reflexivity | discriminate].
  - exists (Ok false). split; [reflexivity | discriminate].
Qed.

(** C7, as the code has it: on an instance not yet in anaphase, the
    transition fires (the flag goes from false to true) at a time point
    exactly when [time_point * dt >= t_A] and the spindle-assembly
    checkpoint passes, where [t_A] is not the parameter but its integer
    part [int(params['t_A'])], truncated toward zero.  When it fires the
    call returns true, the recorded delay is [time_point * dt - t_A] for
    this truncated [t_A], which is not negative, the live
    [kappa_c] is 0, [calc_B] is called once, on the parameters with
    [kappa_c] zeroed, and the report grows by the merotelic line exactly
    when the merotelic count is not zero.  When it does not fire,
    nothing changes. *)
Theorem anaphase_transition time_point w (p dt : Q) :
  params (KD (self w)) !! "t_A" = Some p ->
  params (KD (self w)) !! "dt" = Some dt ->
  anaphase (KD (self w)) = false ->
  let t_A := inject_Z (int p) in
  let t := (inject_Z time_point * dt)%Q in
  let r := _anaphase_test time_point w in
  let nb_mero := count_mero (KD (self w)) in
  let fires := (t_A <= t)%Q /\ fst (_plug_checkpoint w) = Ok true in
  (anaphase (KD (self (snd r))) = true <-> fires) /\
  (fires ->
     fst r = Ok true /\
     delay (self (snd r)) = (t - t_A)%Q /\
     (0 <= delay (self (snd r)))%Q /\
     params (KD (self (snd r))) !! "kappa_c" = Some 0%Q /\
     params (KD (self (snd r))) = <["kappa_c" := 0%Q]> (params (KD (self w))) /\
     trace (snd r) = (trace w ++ [CallCalcB])%list /\
     B_mat (KD (self (snd r))) =
       calc_B (set_params (<["kappa_c" := 0%Q]> (params (KD (self w)))) (KD (self w))) /\
     (nb_mero <> 0 -> report (self (snd r)) = (report (self w) ++ [mero_msg nb_mero])%list) /\
     (nb_mero = 0 -> report (self (snd r)) = report (self w))) /\
  (~ fires -> snd r = w /\ fst r <> Ok true).
Proof.
  intros Hp Hdt Ha t_A t r nb_mero fires.
  assert (Hfire : fires ->
            r = (Ok true,
                 {| self :=
                      {| verbose := verbose (self w);
                         KD := set_anaphase true
                                 (set_B_mat
                                    (calc_B (set_params (<["kappa_c" := 0%Q]> (params (KD (self w)))) (KD (self w))))
                                    (set_params (<["kappa_c" := 0%Q]> (params (KD (self w)))) (KD (self w))));
                         num_steps := num_steps (self w);
                         report :=
                           if nb_mero =? 0 then report (self w)
                           else report (self w) ++ [mero_msg nb_mero];
                         delay := (t - t_A)%Q |};
                    trace := trace w ++ [CallCalcB] |})).
  { intros [Hle Hpc]. subst r.
    apply (anaphase_test_fires time_point w p dt Hp Hdt Ha Hle).
    pose proof (plug_checkpoint_world w) as Hw.
    destruct (_plug_checkpoint w) as [o w1]. simpl in *. now subst. }
  assert (Hwait : ~ fires -> snd r = w /\ fst r <> Ok true).
  { intros Hno.
    destruct (anaphase_test_waits time_point w p dt Hp Hdt Ha Hno) as (r' & Hr & Hne).
    subst r. rewrite Hr. split; [reflexivity | exact Hne]. }
  split; [|split].
  - split.
    + intros Hflag.
      destruct (Qle_bool t_A t) eqn:Hle.
      * apply Qle_bool_iff in Hle.
        destruct (fst (_plug_checkpoint w)) as [[|]|e] eqn:Hpc.
        -- split; [exact Hle | reflexivity].
        -- destruct Hwait as [Hw _]; [intros [_ Hb]; discriminate|].
           rewrite Hw in Hflag. congruence.
        -- destruct Hwait as [Hw _]; [intros [_ Hb]; discriminate|].
           rewrite Hw in Hflag. congruence.
      * apply Qle_bool_false in Hle.
        destruct Hwait as [Hw _]; [intros [Hb _]; contradiction|].
        rewrite Hw in Hflag. congruence.
    + intros Hf. rewrite (Hfire Hf). reflexivity.
  - intros Hf. rewrite (Hfire Hf). cbn [fst snd self delay KD params trace report B_mat set_anaphase set_B_mat set_params].
    split; [reflexivity|]. split; [reflexivity|]. split.
    { destruct Hf as [Hle _]. apply Qle_minus_iff in Hle. exact Hle. }
    split; [apply lookup_insert_eq|]. split; [reflexivity|]. split; [reflexivity|].
    split; [reflexivity|]. split.
    + intros Hnz. apply Z.eqb_neq in Hnz. now rewrite Hnz.
    + intros Hz. apply Z.eqb_eq in Hz. now rewrite Hz.
  - exact Hwait.
Qed.

(** *** The ablation *)

Lemma ablate_unattached (x : Q) time_point (plugsite : PlugSite.t) :
  PlugSite.plug_state plugsite = 0 -> ablate x time_point plugsite = plugsite.
Proof.
  intros H0. unfold ablate. rewrite H0. simpl.
  now rewrite !andb_false_r.
Qed.

Lemma between_poles_test (m : Metaphase) (x : Q) :
  le (Spb.pos (spbL (KD m))) x && le x (Spb.pos (spbR (KD m))) = true <->
  between_poles m x.
Proof.
  unfold between_poles, le. rewrite andb_true_iff, !Qle_bool_iff. reflexivity.
Qed.

(** The outcome of a missed shot. *)
Lemma ablation_missed time_point pos w :
  ~ between_poles (self w) (aim (self w) pos) ->
  _ablation time_point pos w =
  (Ok tt, {| self := self w; trace := trace w ++ [LogWarning missed_shot_msg] |}).
Proof.
  intros Hno. unfold _ablation, bind, get_self. fold (aim (self w) pos).
  destruct (le _ _ && le _ _) eqn:Ht.
  - exfalso. apply Hno. now apply between_poles_test.
  - reflexivity.
Qed.

(** The outcome of a shot between the poles. *)
Lemma ablation_hit time_point pos w :
  between_poles (self w) (aim (self w) pos) ->
  let kd := KD (self w) in
  let kd' :=
    set_params (<["k_d0" := 0%Q]> (<["k_a" := 0%Q]> (<["Fmz" := 0%Q]> (params kd)))) kd in
  _ablation time_point pos w =
  (Ok tt,
   {| self :=
        set_KD
          (set_all_plugsites
             (map (ablate (aim (self w) pos) time_point) (all_plugsites kd))
             (set_A0_mat (time_invariantA kd') kd'))
          (self w);
      trace := trace w ++ [CallTimeInvariantA] |}).
Proof.
  intros Hyes kd kd'. subst kd kd'.
  unfold _ablation, bind at 1, get_self at 1. fold (aim (self w) pos).
  apply between_poles_test in Hyes. rewrite Hyes. simpl negb. cbv iota.
  unfold call_time_invariantA, set_param, modify_KD, modify_self, emit,
    get_self, bind, ret.
  reflexivity.
Qed.

(** C3, as the code has it: an ablation aimed outside the closed
    interval between the poles returns normally, changes nothing of the
    instance (no plug site changes state, and the report is as it was:
    no line is appended to it) and makes one call, [log.warning] with
    the missed-shot line.  An ablation aimed
    inside the interval returns normally, logs no warning and leaves
    every plug site whose state is 0 exactly as it was. *)
Theorem ablation_spec time_point pos w :
  let r := _ablation time_point pos w in
  (~ between_poles (self w) (aim (self w) pos) ->
     fst r = Ok tt /\
     self (snd r) = self w /\
     all_plugsites (KD (self (snd r))) = all_plugsites (KD (self w)) /\
     trace (snd r) = (trace w ++ [LogWarning missed_shot_msg])%list /\
     warnings (trace (snd r)) = (warnings (trace w) ++ [missed_shot_msg])%list) /\
  (between_poles (self w) (aim (self w) pos) ->
     fst r = Ok tt /\
     warnings (trace (snd r)) = warnings (trace w) /\
     forall (i : nat) (plugsite : PlugSite.t),
       all_plugsites (KD (self w)) !! i = Some plugsite ->
       PlugSite.plug_state plugsite = 0 ->
       all_plugsites (KD (self (snd r))) !! i = Some plugsite).
Proof.
  intros r. subst r. split.
  - intros Hno. rewrite (ablation_missed _ _ _ Hno). cbn [fst snd self trace].
    repeat split; try reflexivity.
    unfold warnings. now rewrite flat_map_app.
  - intros Hyes. rewrite (ablation_hit _ _ _ Hyes).
    cbn [fst snd self trace KD set_KD set_all_plugsites all_plugsites].
    split; [reflexivity|]. split.
    + unfold warnings. rewrite flat_map_app. simpl. now rewrite app_nil_r.
    + intros i plugsite Hi H0. rewrite lookup_map, Hi. simpl.
      now rewrite ablate_unattached.
Qed.

(** *** The loop of [simul] *)

Lemma one_step_calls_app (tr1 tr2 : list Event) :
  one_step_calls (tr1 ++ tr2) = (one_step_calls tr1 ++ one_step_calls tr2)%list.
Proof. apply flat_map_app. Qed.

Lemma calc_B_calls_app (tr1 tr2 : list Event) :
  calc_B_calls (tr1 ++ tr2) = (calc_B_calls tr1 + calc_B_calls tr2)%nat.
Proof. unfold calc_B_calls. now rewrite List.filter_app, length_app. Qed.

Lemma bind_Ok_inv {A B : Type} (c : M A) (k : A -> M B) w (b : B) w' :
  bind c k w = (Ok b, w') ->
  exists a w1, c w = (Ok a, w1) /\ k a w1 = (Ok b, w').
Proof.
  unfold bind. destruct (c w) as [[a|e] w1]; intros Hk.
  - now exists a, w1.
  - discriminate.
Qed.

Lemma advances_refl w : advances [] w w.
Proof.
  unfold advances. rewrite app_nil_r. repeat split; reflexivity || lia.
Qed.

Lemma advances_trans (l1 l2 : list Z) w w1 w2 :
  advances l1 w w1 -> advances l2 w1 w2 -> advances (l1 ++ l2) w w2.
Proof.
  intros (Hv1 & Hn1 & Ho1 & Hc1 & Hd1) (Hv2 & Hn2 & Ho2 & Hc2 & Hd2).
  unfold advances. repeat split.
  - congruence.
  - congruence.
  - rewrite Ho2, Ho1. now rewrite app_assoc.
  - lia.
  - destruct Hd1 as [Hd1 _]; [lia|]. destruct Hd2 as [Hd2 _]; [lia|]. congruence.
  - destruct Hd1 as [_ Hd1]; [lia|]. destruct Hd2 as [_ Hd2]; [lia|]. congruence.
Qed.

Lemma post_ret {A : Type} (a : A) : post (ret a) [].
Proof. intros w a' w' Heq. injection Heq as _ <-. apply advances_refl. Qed.

Lemma post_raise {A : Type} (e : exn) : post (@raise A e) [].
Proof. intros w a w' Heq. discriminate. Qed.

Lemma post_bind {A B : Type} (c : M A) (k : A -> M B) (l1 l2 : list Z) :
  post c l1 -> (forall a, post (k a) l2) -> post (bind c k) (l1 ++ l2).
Proof.
  intros Hc Hk w b w' Heq.
  destruct (bind_Ok_inv _ _ _ _ _ Heq) as (a & w1 & Hcw & Hkw).
  eapply advances_trans; [exact (Hc _ _ _ Hcw) | exact (Hk _ _ _ _ Hkw)].
Qed.

Lemma post_then {A B : Type} (c : M A) (k : A -> M B) (l : list Z) :
  post c [] -> (forall a, post (k a) l) -> post (bind c k) l.
Proof. intros Hc Hk. change l with ([] ++ l)%list. now apply post_bind. Qed.

Lemma post_get_self : post get_self [].
Proof. intros w a w' Heq. injection Heq as _ <-. apply advances_refl. Qed.

Lemma post_get_param (key : string) : post (get_param key) [].
Proof.
  intros w a w' Heq. pose proof (get_param_world key w) as Hw.
  rewrite Heq in Hw. simpl in Hw. subst w'. apply advances_refl.
Qed.

Lemma post_emit (e : Event) : one_step_calls [e] = [] -> post (emit e) [].
Proof.
  intros He w a w' Heq. unfold emit in Heq. injection Heq as _ <-.
  unfold advances. cbn [self trace].
  rewrite one_step_calls_app, He, calc_B_calls_app.
  repeat split; reflexivity || lia.
Qed.

Lemma post_modify_KD (f : KinetoDynamics -> KinetoDynamics) : post (modify_KD f) [].
Proof.
  intros w a w' Heq. unfold modify_KD, modify_self in Heq. injection Heq as _ <-.
  unfold advances. cbn [self trace set_KD verbose num_steps delay report].
  rewrite app_nil_r. repeat split; reflexivity || lia.
Qed.

Lemma post_when (b : bool) (c : M unit) : post c [] -> post (when b c) [].
Proof. intros Hc. destruct b; [exact Hc | apply post_ret]. Qed.

Lemma post_call_one_step time_point : post (call_one_step time_point) [time_point].
Proof.
  intros w a w' Heq. unfold call_one_step, bind, emit in Heq. cbn in Heq.
  injection Heq as _ <-. unfold advances. cbn [self trace set_KD verbose num_steps delay report].
  rewrite one_step_calls_app, calc_B_calls_app. cbn.
  repeat split; reflexivity || lia.
Qed.

Lemma post_ablation time_point pos : post (_ablation time_point pos) [].
Proof.
  unfold _ablation. apply post_then; [apply post_get_self|]. intros m.
  destruct (negb _).
  - now apply post_emit.
  - unfold set_param.
    do 3 (apply post_then; [apply post_modify_KD|]; intros _).
    apply post_then.
    { unfold call_time_invariantA.
      apply post_then; [now apply post_emit|]. intros _.
      apply post_then; [apply post_get_self|]. intros m'. apply post_ret. }
    intros A. apply post_then; [apply post_modify_KD|]. intros _.
    apply post_modify_KD.
Qed.

Lemma post_anaphase_test time_point : post (_anaphase_test time_point) [].
Proof.
  intros w a w' Heq.
  destruct (params (KD (self w)) !! "t_A") as [p|] eqn:Hp.
  2:{ unfold _anaphase_test, bind in Heq. rewrite (get_param_None _ _ Hp) in Heq.
      discriminate. }
  destruct (params (KD (self w)) !! "dt") as [dt|] eqn:Hdt.
  2:{ unfold _anaphase_test, bind in Heq.
      rewrite (get_param_Some _ _ _ Hp), (get_param_None _ _ Hdt) in Heq.
      discriminate. }
  destruct (anaphase (KD (self w))) eqn:Ha.
  { rewrite (anaphase_test_latched _ _ _ _ Hp Hdt Ha) in Heq.
    injection Heq as _ <-. apply advances_refl. }
  destruct (Qle_bool (inject_Z (int p)) (inject_Z time_point * dt)) eqn:Hle.
  - apply Qle_bool_iff in Hle.
    pose proof (plug_checkpoint_world w) as Hw.
    destruct (_plug_checkpoint w) as [[[|]|e] w1] eqn:Hpc; simpl in Hw; subst w1.
    + rewrite (anaphase_test_fires _ _ _ _ Hp Hdt Ha Hle Hpc) in Heq.
      injection Heq as _ <-. unfold advances. cbn [self trace verbose num_steps].
      rewrite one_step_calls_app, calc_B_calls_app. cbn.
      rewrite app_nil_r. repeat split; reflexivity || lia.
    + destruct (anaphase_test_waits time_point w p dt Hp Hdt Ha) as (r & Hr & _).
      { rewrite Hpc. intros [_ Hb]. discriminate. }
      rewrite Hr in Heq. injection Heq as _ <-. apply advances_refl.
    + destruct (anaphase_test_waits time_point w p dt Hp Hdt Ha) as (r & Hr & _).
      { rewrite Hpc. intros [_ Hb]. discriminate. }
      rewrite Hr in Heq. injection Heq as _ <-. apply advances_refl.
  - apply Qle_bool_false in Hle.
    destruct (anaphase_test_waits time_point w p dt Hp Hdt Ha) as (r & Hr & _).
    { intros [Hb _]. contradiction. }
    rewrite Hr in Heq. injection Heq as _ <-. apply advances_refl.
Qed.

Lemma post_simul_step ablat ablat_pos time_point (acc : Z * bool) :
  post (simul_step ablat ablat_pos time_point acc) [time_point].
Proof.
  unfold simul_step.
  apply post_then; [apply post_get_self|]. intros m.
  apply post_then.
  { destruct (_ && _); [|apply post_ret].
    apply post_then; [now apply post_emit | intros _; apply post_ret]. }
  intros bef.
  apply post_then.
  { apply post_when. apply post_then; [|intros _; apply post_ablation].
    apply post_when. now apply post_emit. }
  intros _.
  apply post_then; [apply post_anaphase_test|]. intros a.
  apply post_then.
  { destruct (_ && _); [|apply post_ret].
    apply post_then; [now apply post_emit|]. intros _.
    apply post_then; [apply post_when; now apply post_emit|]. intros _.
    apply post_ret. }
  intros log_anaphase_onset.
  change [time_point] with ([time_point] ++ [])%list.
  apply post_bind; [apply post_call_one_step | intros _; apply post_ret].
Qed.

Lemma post_for ablat ablat_pos (l : list Z) (acc : Z * bool) :
  post (for_ l (simul_step ablat ablat_pos) acc) l.
Proof.
  revert acc. induction l as [|time_point l IH]; intros acc; cbn [for_].
  - apply post_ret.
  - change (time_point :: l) with ([time_point] ++ l)%list.
    apply post_bind; [apply post_simul_step | exact IH].
Qed.

(** The two ends of a run that returned normally: the world [w1] the
    loop starts from and the world [w2] it leaves. *)
Lemma simul_Ok_inv ablat ablat_pos w w' :
  simul ablat ablat_pos w = (Ok tt, w') ->
  exists (kappa_c : Q) (acc : Z * bool) (w1 w2 : World),
    simulation_done (KD (self w)) = false /\
    params (KD (self w)) !! "kappa_c" = Some kappa_c /\
    self w1 = self w /\
    trace w1 = (trace w ++
                if verbose (self w) then [LogInfo "Running simulation"] else [])%list /\
    for_ (range 1 (num_steps (self w))) (simul_step ablat ablat_pos) (0, false) w1
      = (Ok acc, w2) /\
    params (KD (self w')) = <["kappa_c" := kappa_c]> (params (KD (self w2))) /\
    delay (self w') = delay (self w2) /\
    report (self w') = (report (self w2) ++ [delay_msg (delay (self w2))])%list /\
    trace w' = (trace w2 ++
                if verbose (self w) then [Pprogress (-1); LogInfo "Simulation done"]
                else [])%list.
Proof.
  intros Heq. unfold simul in Heq.
  unfold bind at 1 in Heq. unfold get_self at 1 in Heq.
  destruct (simulation_done (KD (self w))) eqn:Hd; [discriminate|].
  apply bind_Ok_inv in Heq. destruct Heq as (kappa_c & w0 & Hk & Heq).
  pose proof (get_param_world "kappa_c" w) as Hw0. rewrite Hk in Hw0.
  simpl in Hw0. subst w0.
  assert (Hkc : params (KD (self w)) !! "kappa_c" = Some kappa_c).
  { destruct (params (KD (self w)) !! "kappa_c") as [v|] eqn:Hl.
    - rewrite (get_param_Some _ _ _ Hl) in Hk. congruence.
    - rewrite (get_param_None _ _ Hl) in Hk. discriminate. }
  apply bind_Ok_inv in Heq. destruct Heq as ([] & w1 & H1 & Heq).
  apply bind_Ok_inv in Heq. destruct Heq as (acc & w2 & Hloop & Heq).
  exists kappa_c, acc, w1, w2.
  split; [reflexivity|]. split; [exact Hkc|].
  assert (Hw1 : self w1 = self w /\
                trace w1 = (trace w ++ if verbose (self w)
                                       then [LogInfo "Running simulation"] else [])%list).
  { destruct (verbose (self w)); cbn in H1; injection H1 as <-; cbn.
    - split; reflexivity.
    - rewrite app_nil_r. split; reflexivity. }
  destruct Hw1 as [Hs1 Ht1].
  split; [exact Hs1|]. split; [exact Ht1|]. split; [exact Hloop|].
  destruct (verbose (self w)); cbn in Heq; injection Heq as <-; cbn.
  - repeat split; try reflexivity. now rewrite <- app_assoc.
  - rewrite app_nil_r. repeat split; reflexivity.
Qed.

(** *** The run *)

Lemma init_inv (v : bool) (dic : gmap string Q) (kd : KinetoDynamics) (m : Metaphase) :
  init v dic kd = Ok m ->
  exists dt duration : Q,
    dic !! "dt" = Some dt /\ dic !! "span" = Some duration /\ ~ (dt == 0)%Q /\
    m = {| verbose := v; KD := set_anaphase false kd;
           num_steps := int (duration / dt); report := []; delay := (-1)%Q |}.
Proof.
  unfold init, truediv. intros Hi.
  destruct (dic !! "dt") as [dt|]; [|discriminate].
  destruct (dic !! "span") as [duration|]; [|discriminate].
  destruct (Qeq_bool dt 0) eqn:Hz; [discriminate|].
  exists dt, duration. injection Hi as <-.
  repeat split; try reflexivity.
  intros Hq. apply Qeq_bool_iff in Hq. congruence.
Qed.

(** C2, as the code has it: the constructor sets [num_steps] to
    [int(duration / dt)], the quotient truncated toward zero, which is
    [floor(duration / dt)] when the quotient is not negative; and a run
    that returns normally has called [one_step] once for each time
    point from 1 to [num_steps - 1], in this order, and at no other
    time: [num_steps - 1] calls, none when [num_steps <= 1]. *)
Theorem num_steps_and_one_step_calls :
  (forall (v : bool) (dic : gmap string Q) (kd : KinetoDynamics) (m : Metaphase),
     init v dic kd = Ok m ->
     exists dt duration : Q,
       dic !! "dt" = Some dt /\ dic !! "span" = Some duration /\
       num_steps m = int (duration / dt) /\
       ((0 <= duration / dt)%Q -> num_steps m = Qfloor (duration / dt))) /\
  (forall ablat ablat_pos w w',
     simul ablat ablat_pos w = (Ok tt, w') ->
     one_step_calls (trace w') =
       (one_step_calls (trace w) ++ range 1 (num_steps (self w)))%list /\
     Z.of_nat (List.length (one_step_calls (trace w'))) =
       Z.of_nat (List.length (one_step_calls (trace w))) +
       Z.max 0 (num_steps (self w) - 1)).
Proof.
  split.
  - intros v dic kd m Hi.
    destruct (init_inv _ _ _ _ Hi) as (dt & duration & Hdt & Hspan & _ & ->).
    exists dt, duration. cbn [num_steps].
    repeat split; try assumption. apply int_floor.
  - intros ablat ablat_pos w w' Hrun.
    destruct (simul_Ok_inv _ _ _ _ Hrun)
      as (kappa_c & acc & w1 & w2 & _ & _ & Hs1 & Ht1 & Hloop & _ & _ & _ & Ht2).
    destruct (post_for _ _ _ _ _ _ _ Hloop) as (_ & _ & Hcalls & _).
    assert (Hlist : one_step_calls (trace w') =
              (one_step_calls (trace w) ++ range 1 (num_steps (self w)))%list).
    { rewrite Ht2, one_step_calls_app, Hcalls, Ht1, one_step_calls_app.
      destruct (verbose (self w)); cbn; now rewrite !app_nil_r. }
    split; [exact Hlist|].
    rewrite Hlist, length_app, Nat2Z.inj_add, length_range. reflexivity.
Qed.

(** C9: when a run returns normally, the live [kappa_c] is the value it
    had when the run started, whether or not the anaphase transition
    has zeroed it on the way. *)
Theorem simul_restores_kappa_c ablat ablat_pos w w' :
  simul ablat ablat_pos w = (Ok tt, w') ->
  exists kappa_c : Q,
    params (KD (self w)) !! "kappa_c" = Some kappa_c /\
    params (KD (self w')) !! "kappa_c" = Some kappa_c.
Proof.
  intros Hrun.
  destruct (simul_Ok_inv _ _ _ _ Hrun)
    as (kappa_c & acc & w1 & w2 & _ & Hk & _ & _ & _ & Hp & _).
  exists kappa_c. split; [exact Hk|].
  rewrite Hp. apply lookup_insert_eq.
Qed.

(** The transition fires in a call of [_anaphase_test] exactly when
    the call makes a call of [calc_B]. *)
Lemma anaphase_test_calc_B time_point w :
  anaphase (KD (self w)) = false ->
  (anaphase (KD (self (snd (_anaphase_test time_point w)))) = true <->
   ~ never_fired w (snd (_anaphase_test time_point w))).
Proof.
  intros Ha. unfold never_fired.
  assert (Hsame : forall r, _anaphase_test time_point w = (r, w) ->
            anaphase (KD (self (snd (_anaphase_test time_point w)))) = true <->
            calc_B_calls (trace (snd (_anaphase_test time_point w)))
            <> calc_B_calls (trace w)).
  { intros r Hr. rewrite Hr. cbn [snd]. rewrite Ha.
    split; [discriminate | intros Hne; now contradiction Hne]. }
  destruct (params (KD (self w)) !! "t_A") as [p|] eqn:Hp.
  2:{ apply (Hsame (Raise (KeyError "t_A"))).
      unfold _anaphase_test, bind. now rewrite (get_param_None _ _ Hp). }
  destruct (params (KD (self w)) !! "dt") as [dt|] eqn:Hdt.
  2:{ apply (Hsame (Raise (KeyError "dt"))).
      unfold _anaphase_test, bind.
      now rewrite (get_param_Some _ _ _ Hp), (get_param_None _ _ Hdt). }
  destruct (Qle_bool (inject_Z (int p)) (inject_Z time_point * dt)) eqn:Hle.
  - apply Qle_bool_iff in Hle.
    pose proof (plug_checkpoint_world w) as Hw.
    destruct (_plug_checkpoint w) as [[[|]|e] w1] eqn:Hpc; simpl in Hw; subst w1.
    + rewrite (anaphase_test_fires _ _ _ _ Hp Hdt Ha Hle Hpc).
      cbn [snd self KD trace anaphase set_anaphase].
      rewrite calc_B_calls_app. cbn. split; [lia | reflexivity].
    + destruct (anaphase_test_waits time_point w p dt Hp Hdt Ha) as (r & Hr & _).
      { rewrite Hpc. intros [_ Hb]. discriminate. }
      exact (Hsame r Hr).
    + destruct (anaphase_test_waits time_point w p dt Hp Hdt Ha) as (r & Hr & _).
      { rewrite Hpc. intros [_ Hb]. discriminate. }
      exact (Hsame r Hr).
  - apply Qle_bool_false in Hle.
    destruct (anaphase_test_waits time_point w p dt Hp Hdt Ha) as (r & Hr & _).
    { intros [Hb _]. contradiction. }
    exact (Hsame r Hr).
Qed.

(** *** Runs that return *)

Lemma keyed_insert (key : string) (v : Q) (kd : KinetoDynamics) :
  keyed kd -> keyed (set_params (<[key := v]> (params kd)) kd).
Proof.
  assert (Hk : forall k, is_Some (params kd !! k) ->
                         is_Some (<[key := v]> (params kd) !! k)).
  { intros k Hs. destruct (decide (key = k)) as [->|Hne].
    - rewrite lookup_insert_eq. now exists v.
    - now rewrite lookup_insert_ne. }
  intros (Ht & Hd & Hs). unfold keyed. cbn [params set_params].
  repeat split; now apply Hk.
Qed.

Lemma runs_ret {A : Type} (a : A) : runs (ret a).
Proof. intros w Hk. now exists a, w. Qed.

Lemma runs_bind {A B : Type} (c : M A) (k : A -> M B) :
  runs c -> (forall a, runs (k a)) -> runs (bind c k).
Proof.
  intros Hc Hk w Hw. destruct (Hc w Hw) as (a & w1 & Hcw & Hw1).
  destruct (Hk a w1 Hw1) as (b & w2 & Hkw & Hw2).
  exists b, w2. unfold bind. rewrite Hcw. now split.
Qed.

Lemma runs_get_self : runs get_self.
Proof. intros w Hk. now exists (self w), w. Qed.

Lemma runs_get_param (key : string) :
  (forall kd, keyed kd -> is_Some (params kd !! key)) -> runs (get_param key).
Proof.
  intros Hkey w Hk. destruct (Hkey _ Hk) as [v Hv].
  exists v, w. split; [now apply get_param_Some | exact Hk].
Qed.

Lemma runs_emit (e : Event) : runs (emit e).
Proof. intros w Hk. eexists tt, _. split; [reflexivity | exact Hk]. Qed.

Lemma runs_modify_self (f : Metaphase -> Metaphase) :
  (forall m, keyed (KD m) -> keyed (KD (f m))) -> runs (modify_self f).
Proof. intros Hf w Hk. eexists tt, _. split; [reflexivity | now apply Hf]. Qed.

Lemma runs_modify_KD (f : KinetoDynamics -> KinetoDynamics) :
  (forall kd, keyed kd -> keyed (f kd)) -> runs (modify_KD f).
Proof. intros Hf. apply runs_modify_self. intros m Hk. now apply Hf. Qed.

Lemma runs_set_param (key : string) (v : Q) : runs (set_param key v).
Proof. apply runs_modify_KD. intros kd. apply keyed_insert. Qed.

Lemma runs_when (b : bool) (c : M unit) : runs c -> runs (when b c).
Proof. intros Hc. destruct b; [exact Hc | apply runs_ret]. Qed.

Lemma runs_call_one_step time_point : steady -> runs (call_one_step time_point).
Proof.
  intros Hsteady w Hk.
  destruct (Hsteady time_point (KD (self w))) as [Hok Hkeep].
  unfold call_one_step, bind, emit. cbn [self trace KD].
  eexists tt, _. split; [now rewrite Hok | now apply Hkeep].
Qed.

Lemma runs_plug_checkpoint : runs _plug_checkpoint.
Proof.
  unfold _plug_checkpoint.
  apply runs_bind; [apply runs_get_param; now intros kd (_ & _ & Hs)|].
  intros sac. destruct (eq sac 0); [apply runs_ret|].
  apply runs_bind; [apply runs_get_self | intros m; apply runs_ret].
Qed.

Lemma runs_anaphase_test time_point : runs (_anaphase_test time_point).
Proof.
  unfold _anaphase_test.
  apply runs_bind; [apply runs_get_param; now intros kd (Ht & _ & _)|]. intros p.
  apply runs_bind; [apply runs_get_param; now intros kd (_ & Hd & _)|]. intros dt.
  apply runs_bind; [apply runs_get_self|]. intros m.
  destruct (anaphase (KD m)); [apply runs_ret|].
  apply runs_bind.
  { destruct (le _ _); [apply runs_plug_checkpoint | apply runs_ret]. }
  intros [|]; [|apply runs_ret].
  apply runs_bind; [apply runs_modify_self; now intros m'|]. intros _.
  apply runs_bind; [apply runs_set_param|]. intros _.
  apply runs_bind.
  { unfold call_calc_B. apply runs_bind; [apply runs_emit|]. intros _.
    apply runs_modify_KD. now intros kd. }
  intros _.
  apply runs_bind.
  { unfold _mero_checkpoint.
    apply runs_bind; [apply runs_get_self | intros m'; apply runs_ret]. }
  intros nb_mero.
  apply runs_bind.
  { apply runs_when. apply runs_modify_self. now intros m'. }
  intros _.
  apply runs_bind; [apply runs_modify_KD; now intros kd | intros _; apply runs_ret].
Qed.

Lemma runs_ablation time_point pos : runs (_ablation time_point pos).
Proof.
  unfold _ablation.
  apply runs_bind; [apply runs_get_self|]. intros m.
  destruct (negb _); [apply runs_emit|].
  do 3 (apply runs_bind; [apply runs_set_param|]; intros _).
  apply runs_bind.
  { unfold call_time_invariantA.
    apply runs_bind; [apply runs_emit|]. intros _.
    apply runs_bind; [apply runs_get_self | intros m'; apply runs_ret]. }
  intros A.
  apply runs_bind; [apply runs_modify_KD; now intros kd|]. intros _.
  apply runs_modify_KD. now intros kd.
Qed.

Lemma runs_simul_step ablat ablat_pos time_point (acc : Z * bool) :
  steady -> runs (simul_step ablat ablat_pos time_point acc).
Proof.
  intros Hsteady. unfold simul_step.
  apply runs_bind; [apply runs_get_self|]. intros m.
  apply runs_bind.
  { destruct (_ && _); [|apply runs_ret].
    apply runs_bind; [apply runs_emit | intros _; apply runs_ret]. }
  intros bef.
  apply runs_bind.
  { apply runs_when.
    apply runs_bind; [apply runs_when, runs_emit | intros _; apply runs_ablation]. }
  intros _.
  apply runs_bind; [apply runs_anaphase_test|]. intros a.
  apply runs_bind.
  { destruct (_ && _); [|apply runs_ret].
    apply runs_bind; [apply runs_emit|]. intros _.
    apply runs_bind; [apply runs_when, runs_emit | intros _; apply runs_ret]. }
  intros log_anaphase_onset.
  apply runs_bind; [now apply runs_call_one_step | intros _; apply runs_ret].
Qed.

Lemma runs_for ablat ablat_pos (l : list Z) (acc : Z * bool) :
  steady -> runs (for_ l (simul_step ablat ablat_pos) acc).
Proof.
  intros Hsteady. revert acc.
  induction l as [|time_point l IH]; intros acc; cbn [for_].
  - apply runs_ret.
  - apply runs_bind; [now apply runs_simul_step | exact IH].
Qed.

(** With an integrator that returns normally and keeps the parameters
    the loop reads, a run on an instance that has them, has [kappa_c] and
    is not done returns normally. *)
Lemma simul_returns ablat ablat_pos w :
  steady ->
  simulation_done (KD (self w)) = false ->
  is_Some (params (KD (self w)) !! "kappa_c") ->
  keyed (KD (self w)) ->
  exists w', simul ablat ablat_pos w = (Ok tt, w').
Proof.
  intros Hsteady Hd [kappa_c Hk] Hkeys.
  unfold simul, bind at 1, get_self at 1. rewrite Hd.
  unfold bind at 1. rewrite (get_param_Some _ _ _ Hk).
  assert (Hrest : runs
    (when (verbose (self w)) (emit (LogInfo "Running simulation")) ;;;
     for_ (range 1 (num_steps (self w))) (simul_step ablat ablat_pos) (0, false) ;;;
     when (verbose (self w)) (emit (Pprogress (-1))) ;;;
     when (verbose (self w)) (emit (LogInfo "Simulation done")) ;;;
     set_param "kappa_c" kappa_c ;;;
     m' <~ get_self ;;
     report_append (delay_msg (delay m')) ;;;
     modify_KD (fun kd =>
       set_chromosomes (map (finalize (all_plugsites kd)) (chromosomes kd)) kd))).
  { apply runs_bind; [apply runs_when, runs_emit|]. intros _.
    apply runs_bind; [now apply runs_for|]. intros _.
    apply runs_bind; [apply runs_when, runs_emit|]. intros _.
    apply runs_bind; [apply runs_when, runs_emit|]. intros _.
    apply runs_bind; [apply runs_set_param|]. intros _.
    apply runs_bind; [apply runs_get_self|]. intros m'.
    apply runs_bind; [apply runs_modify_self; now intros m|]. intros _.
    apply runs_modify_KD. now intros kd. }
  destruct (Hrest w Hkeys) as ([] & w' & Hw' & _).
  now exists w'.
Qed.

(** C10: the constructor sets the recorded delay to -1; and a run
    that starts with this value, returns normally and during which the
    anaphase transition never fires has appended to the report one
    line and no other, the line "delay = -1 seconds".  Such a run does
    return normally when the instance is not done and has its
    parameters and the integrator returns normally and keeps them. *)
Theorem simul_delay_sentinel :
  (forall (v : bool) (dic : gmap string Q) (kd : KinetoDynamics) (m : Metaphase),
     init v dic kd = Ok m -> delay m = (-1)%Q) /\
  (forall ablat ablat_pos w w',
     delay (self w) = (-1)%Q ->
     simul ablat ablat_pos w = (Ok tt, w') ->
     never_fired w w' ->
     report (self w') = (report (self w) ++ ["delay = -1 seconds"])%list) /\
  (forall ablat ablat_pos w,
     steady ->
     simulation_done (KD (self w)) = false ->
     is_Some (params (KD (self w)) !! "kappa_c") ->
     keyed (KD (self w)) ->
     exists w', simul ablat ablat_pos w = (Ok tt, w')).
Proof.
  split; [|split].
  - intros v dic kd m Hi.
    destruct (init_inv _ _ _ _ Hi) as (dt & duration & _ & _ & _ & ->).
    reflexivity.
  - intros ablat ablat_pos w w' Hd Hrun Hnever. unfold never_fired in Hnever.
    destruct (simul_Ok_inv _ _ _ _ Hrun)
      as (kappa_c & acc & w1 & w2 & _ & _ & Hs1 & Ht1 & Hloop & _ & _ & Hrep & Ht2).
    destruct (post_for _ _ _ _ _ _ _ Hloop) as (_ & _ & _ & Hmono & Hkeep).
    assert (Hc1 : calc_B_calls (trace w1) = calc_B_calls (trace w)).
    { rewrite Ht1, calc_B_calls_app. destruct (verbose (self w)); cbn; lia. }
    assert (Hc2 : calc_B_calls (trace w') = calc_B_calls (trace w2)).
    { rewrite Ht2, calc_B_calls_app. destruct (verbose (self w)); cbn; lia. }
    destruct Hkeep as [Hdelay Hreport]; [congruence|].
    rewrite Hrep, Hreport, Hdelay, Hs1, Hd. reflexivity.
  - intros ablat ablat_pos w. apply simul_returns.
Qed.

End DriverFacts.

(** ** Concrete runs *)

Section Runs.

Import Stub.

(** C2, as stated, fails.  With [dt = 10] and [span = 50] the run
    returns normally and has called [one_step] four times, at the time
    points 1 to 4, while [num_steps] is 5.  With [dt = 10] and
    [span = -25] the constructor sets [num_steps] to -2, while
    [floor(duration / dt)] is -3. *)
Lemma one_step_calls_not_num_steps :
  num_steps (self detached) = 5 /\
  fst (simul None (Some 0%Q) detached) = Ok tt /\
  one_step_calls (trace (snd (simul None (Some 0%Q) detached))) = [1; 2; 3; 4] /\
  Z.of_nat (List.length (one_step_calls (trace (snd (simul None (Some 0%Q) detached)))))
    <> num_steps (self detached) /\
  backwards =
    Ok {| verbose := false; KD := kd ∅ 0 0 0 0; num_steps := -2;
          report := []; delay := (-1)%Q |} /\
  Qfloor ((-25) / 10) = -3.
Proof. repeat split; vm_compute; congruence. Qed.

(** The instance [attached]: five steps for [span = 50] and [dt = 10],
    and a run that calls [one_step] at the time points 1 to 4. *)
Lemma num_steps_and_one_step_calls_witness :
  num_steps (self attached) = Qfloor (50 / 10) /\
  one_step_calls (trace (snd (simul None (Some 0%Q) attached))) = [1; 2; 3; 4].
Proof.
  destruct num_steps_and_one_step_calls as [Hinit Hrun]. split.
  - destruct (Hinit true (prm 1 20) (kd (prm 1 20) (-1) 1 1 1) (self attached))
      as (dt & duration & Hdt & Hspan & _ & Hfloor); [reflexivity|].
    vm_compute in Hdt, Hspan.
    injection Hdt as <-. injection Hspan as <-.
    apply Hfloor. vm_compute. discriminate.
  - destruct (Hrun None (Some 0%Q) attached (snd (simul None (Some 0%Q) attached)))
      as [Hcalls _]; [vm_compute; reflexivity|].
    rewrite Hcalls. vm_compute. reflexivity.
Defined.

(** A shot at 5, beyond the right pole, and a shot at 0 on [detached]. *)
Lemma ablation_spec_witness :
  (~ between_poles (self detached) 5%Q /\
   self (snd (_ablation 1 (Some 5%Q) detached)) = self detached /\
   warnings (trace (snd (_ablation 1 (Some 5%Q) detached))) = [missed_shot_msg]) /\
  (between_poles (self detached) 0%Q /\
   all_plugsites (KD (self (snd (_ablation 1 (Some 0%Q) detached)))) !! 2%nat
     = Some (site 2 (1 # 4) 0)).
Proof.
  assert (Hout : ~ between_poles (self detached) (aim (self detached) (Some 5%Q))).
  { intros [_ Hle]. vm_compute in Hle. apply Hle. reflexivity. }
  assert (Hin : between_poles (self detached) (aim (self detached) (Some 0%Q))).
  { split; vm_compute; discriminate. }
  split.
  - split; [exact Hout|].
    destruct (proj1 (ablation_spec 1 (Some 5%Q) detached) Hout)
      as (_ & Hself & _ & _ & Hwarn).
    split; [exact Hself | exact Hwarn].
  - split; [exact Hin|].
    destruct (proj2 (ablation_spec 1 (Some 0%Q) detached) Hin) as (_ & _ & Hkeep).
    apply Hkeep; reflexivity.
Defined.

(** Calls of the test on [latched], whose anaphase has begun. *)
Lemma anaphase_latch_idempotent_witness :
  anaphase (KD (self latched)) = true /\
  _anaphase_test 7 latched = (Ok true, latched) /\
  anaphase_tests [1; 2; 3] latched = (Ok true, latched).
Proof.
  split; [vm_compute; reflexivity|].
  destruct (anaphase_latch_idempotent latched 20%Q 10%Q) as [Hone Hall];
    try (vm_compute; reflexivity).
  split; [apply Hone | apply Hall].
Defined.

(** A run with ablation arguments on an instance flagged as done. *)
Lemma simul_already_done_witness :
  simulation_done (KD (self (done_ attached))) = true /\
  simul (Some 3%Q) None (done_ attached)
    = (Raise (SimulationAlreadyDone already_done_msg), done_ attached).
Proof.
  split; [reflexivity|].
  apply simul_already_done. reflexivity.
Defined.

(** On [attached] the transition fires at time point 3 (30 s, threshold
    20 s) and waits at time point 1 (10 s). *)
Lemma anaphase_transition_witness :
  anaphase (KD (self attached)) = false /\
  anaphase (KD (self (snd (_anaphase_test 3 attached)))) = true /\
  fst (_anaphase_test 3 attached) = Ok true /\
  delay (self (snd (_anaphase_test 3 attached))) = (inject_Z 3 * 10 - inject_Z 20)%Q /\
  params (KD (self (snd (_anaphase_test 3 attached)))) !! "kappa_c" = Some 0%Q /\
  report (self (snd (_anaphase_test 3 attached)))
    = ["There were 3 merotelic MT at anaphase onset"] /\
  snd (_anaphase_test 1 attached) = attached.
Proof.
  split; [reflexivity|].
  destruct (anaphase_transition 3 attached 20%Q 10%Q) as (Hiff & Hfire & _);
    try (vm_compute; reflexivity).
  destruct (anaphase_transition 1 attached 20%Q 10%Q) as (_ & _ & Hwait);
    try (vm_compute; reflexivity).
  assert (Hf : (inject_Z (int 20) <= inject_Z 3 * 10)%Q /\
               fst (_plug_checkpoint attached) = Ok true).
  { split; [vm_compute; discriminate | vm_compute; reflexivity]. }
  destruct (Hfire Hf) as (Hret & Hdelay & _ & Hkappa & _ & _ & _ & Hmero & _).
  split; [apply Hiff; exact Hf|].
  split; [exact Hret|]. split; [exact Hdelay|]. split; [exact Hkappa|].
  split.
  - rewrite Hmero; [reflexivity | vm_compute; discriminate].
  - apply Hwait. intros [Hle _]. vm_compute in Hle. apply Hle. reflexivity.
Defined.

(** The checkpoint with [sac = 0] and no attachment at all, then with
    [sac = 1] on [detached] and on [attached]. *)
Lemma plug_checkpoint_spec_witness :
  _plug_checkpoint (world_of (init false (prm 0 20) (kd (prm 0 20) 0 0 0 0)))
    = (Ok true, world_of (init false (prm 0 20) (kd (prm 0 20) 0 0 0 0))) /\
  fst (_plug_checkpoint detached) = Ok false /\
  fst (_plug_checkpoint attached) = Ok true.
Proof.
  split.
  - apply (proj1 (plug_checkpoint_spec
                    (world_of (init false (prm 0 20) (kd (prm 0 20) 0 0 0 0))) 0%Q
                    eq_refl)).
    reflexivity.
  - assert (Hnz : ~ (1 == 0)%Q) by discriminate.
    destruct (proj2 (plug_checkpoint_spec detached 1%Q eq_refl) Hnz)
      as (b & Hrun & _ & Hfail).
    destruct (proj2 (plug_checkpoint_spec attached 1%Q eq_refl) Hnz)
      as (b' & Hrun' & Hpass & _).
    rewrite Hrun, Hrun'. cbn [fst]. split.
    + f_equal. apply (Hfail (chromosome (-3 # 8) (3 # 8))); [now left|].
      right. reflexivity.
    + f_equal. apply Hpass. intros ch [<-|[]]. split; reflexivity.
Defined.

(** On [attached] the transition zeroes [kappa_c], 1/2 at the start,
    and the run puts 1/2 back. *)
Lemma simul_restores_kappa_c_witness :
  params (KD (self attached)) !! "kappa_c" = Some (1 # 2)%Q /\
  params (KD (self (snd (_anaphase_test 2 attached)))) !! "kappa_c" = Some 0%Q /\
  params (KD (self (snd (simul None (Some 0%Q) attached)))) !! "kappa_c" = Some (1 # 2)%Q.
Proof.
  split; [vm_compute; reflexivity|]. split; [vm_compute; reflexivity|].
  destruct (simul_restores_kappa_c None (Some 0%Q) attached
              (snd (simul None (Some 0%Q) attached)))
    as (kappa_c & Hbefore & Hafter); [vm_compute; reflexivity|].
  rewrite Hafter, <- Hbefore. vm_compute. reflexivity.
Defined.

(** The stand-in integrator returns normally and keeps the parameters. *)
Lemma stub_steady : steady.
Proof. intros time_point kd. split; [reflexivity | intros Hk; exact Hk]. Qed.

(** The run of [detached], whose checkpoint never passes. *)
Lemma simul_delay_sentinel_witness :
  delay (self detached) = (-1)%Q /\
  fst (simul (Some 1%Q) (Some 0%Q) detached) = Ok tt /\
  never_fired detached (snd (simul (Some 1%Q) (Some 0%Q) detached)) /\
  report (self (snd (simul (Some 1%Q) (Some 0%Q) detached))) = ["delay = -1 seconds"].
Proof.
  destruct simul_delay_sentinel as (Hinit & Hrun & Hreturns).
  split; [apply (Hinit false (prm 1 20) (kd (prm 1 20) 1 1 0 0)); reflexivity|].
  destruct (Hreturns (Some 1%Q) (Some 0%Q) detached stub_steady) as [w' Hw'].
  - reflexivity.
  - exists (1 # 2)%Q. vm_compute. reflexivity.
  - repeat split; [exists 20%Q | exists 10%Q | exists 1%Q]; vm_compute; reflexivity.
  - rewrite Hw'. cbn [fst snd]. split; [reflexivity|].
    assert (Hn : never_fired detached w').
    { replace w' with (snd (simul (Some 1%Q) (Some 0%Q) detached)) by now rewrite Hw'.
      vm_compute. reflexivity. }
    split; [exact Hn|].
    apply (Hrun (Some 1%Q) (Some 0%Q) detached w'); [reflexivity | exact Hw' | exact Hn].
Defined.

(** [simul] itself never sets [KD.simulation_done]: with an integrator
    that leaves the flag alone, the instance is not done after its run
    and a second run is not refused. *)
Lemma second_run_not_refused :
  simulation_done (KD (self latched)) = false /\
  fst (simul None (Some 0%Q) latched) = Ok tt.
Proof. split; vm_compute; reflexivity. Qed.

End Runs.

(** * Further properties *)

(** ** The attachment classifier *)

Module AttachmentMore.
Import Attachment.

(** X1: [get_attachment] raises [IndexError] on a state of fewer than
    four entries; on a longer state it reads the first four entries
    only, and returns an index from 0 to 5 at which
    [get_attachment_names] has a name. *)
Theorem get_attachment_bounds (state : list Z) :
  ((List.length state < 4)%nat ->
     get_attachment state = Raise IndexError /\ label state = Raise IndexError) /\
  ((4 <= List.length state)%nat ->
     get_attachment state = get_attachment (firstn 4 state) /\
     exists (i : Z) (name : string),
       get_attachment state = Ok i /\ 0 <= i <= 5 /\
       get_attachment_names !! Z.to_nat i = Some name /\
       label state = Ok name).
Proof.
  destruct state as [|a [|b [|c [|d rest]]]]; cbn [List.length];
    (split; [intros Hlt | intros Hge]); try lia; try (split; reflexivity).
  split; [reflexivity|].
  unfold label, get_attachment, permute, getitem. simpl.
  repeat match goal with
         | |- context [if ?b then _ else _] => destruct b
         end;
    eexists _, _; (split; [reflexivity|]); (split; [lia|]);
    split; reflexivity.
Qed.

Lemma get_attachment_bounds_witness :
  get_attachment [2; 0; 1] = Raise IndexError /\
  get_attachment [2; 0; 1; 0; 7; 7] = get_attachment [2; 0; 1; 0].
Proof.
  split.
  - apply (proj1 (get_attachment_bounds [2; 0; 1])). cbn. lia.
  - apply (proj2 (get_attachment_bounds [2; 0; 1; 0; 7; 7])). cbn. lia.
Defined.

(** X2: on a four-entry vector the five tests of [get_attachment]
    exclude one another, so the order in which they are tried decides
    nothing: the index returned is [k] exactly when the test of class
    [k] succeeds, and 5 exactly when none does. *)
Theorem get_attachment_first_match_is_only_match (a b c d : Z) :
  (get_attachment [a; b; c; d] = Ok 0 <-> either_side amphitelic a b c d = true) /\
  (get_attachment [a; b; c; d] = Ok 1 <-> either_side monotelic a b c d = true) /\
  (get_attachment [a; b; c; d] = Ok 2 <-> either_side syntelic a b c d = true) /\
  (get_attachment [a; b; c; d] = Ok 3 <-> either_side merotelic a b c d = true) /\
  (get_attachment [a; b; c; d] = Ok 4 <-> either_side unattached a b c d = true) /\
  (get_attachment [a; b; c; d] = Ok 5 <->
     either_side amphitelic a b c d = false /\ either_side monotelic a b c d = false /\
     either_side syntelic a b c d = false /\ either_side merotelic a b c d = false /\
     either_side unattached a b c d = false).
Proof.
  unfold get_attachment, permute, getitem, either_side. simpl.
  unfold amphitelic, monotelic, syntelic, merotelic, unattached, at_. simpl.
  destruct a, b, c, d; simpl;
    repeat split; intros; try discriminate; try reflexivity;
    repeat match goal with H : _ /\ _ |- _ => destruct H end; discriminate.
Qed.

(** X3: on counts (no negative entry) the classifier returns the error
    index 5 exactly when neither side has a correct attachment and some
    side has an erroneous one. *)
Theorem get_attachment_error_iff (a b c d : Z) :
  0 <= a -> 0 <= b -> 0 <= c -> 0 <= d ->
  (get_attachment [a; b; c; d] = Ok 5 <-> a = 0 /\ b = 0 /\ (0 < c \/ 0 < d)).
Proof.
  intros Ha Hb Hc Hd.
  unfold get_attachment, permute, getitem. simpl.
  unfold amphitelic, monotelic, syntelic, merotelic, unattached, at_. simpl.
  destruct a, b, c, d; try lia; simpl;
    (split; [intros Heq; try discriminate; repeat split; lia
            | intros (H1 & H2 & H3); try discriminate; try lia; try reflexivity]).
Qed.

Lemma get_attachment_error_iff_witness :
  get_attachment [0; 0; 0; 2] = Ok 5 /\ get_attachment [0; 1; 1; 0] <> Ok 5.
Proof.
  split.
  - apply (get_attachment_error_iff 0 0 0 2); lia.
  - intros Heq. apply (get_attachment_error_iff 0 1 1 0) in Heq; lia.
Defined.

(** The state [[0; 1; 1; 0]] itself satisfies none of the five
    predicates: its class comes from the permutation alone. *)
Lemma state_0110_matches_none :
  amphitelic [0; 1; 1; 0] = false /\ monotelic [0; 1; 1; 0] = false /\
  syntelic [0; 1; 1; 0] = false /\ merotelic [0; 1; 1; 0] = false /\
  unattached [0; 1; 1; 0] = false.
Proof. repeat split. Qed.

End AttachmentMore.

(** ** Checkpoints, latch and ablation *)

Section CheckpointFacts.

Context `{Collaborator}.

Implicit Types (w : World) (time_point : Z) (pos : option Q).

Lemma sum_from (l : list Z) (n : Z) : fold_left Z.add l n = n + sum l.
Proof.
  unfold sum. revert n. induction l as [|x l IH]; intros n; simpl.
  - lia.
  - rewrite IH, (IH (0 + x)). lia.
Qed.

Lemma sum_cons (x : Z) (l : list Z) : sum (x :: l) = x + sum l.
Proof. unfold sum. simpl. apply sum_from. Qed.

Lemma sum_app (l1 l2 : list Z) : sum (l1 ++ l2) = sum l1 + sum l2.
Proof.
  induction l1 as [|x l1 IH]; simpl.
  - reflexivity.
  - rewrite !sum_cons, IH. lia.
Qed.

Lemma np_any_false_sum (l : list Z) : np_any l = false -> sum l = 0.
Proof.
  induction l as [|x l IH]; simpl; [reflexivity|].
  intros Hany. apply orb_false_iff in Hany. destruct Hany as [Hx Hl].
  apply negb_false_iff, Z.eqb_eq in Hx. rewrite sum_cons, IH by exact Hl. lia.
Qed.

Lemma sum_nonneg (l : list Z) : (forall x, In x l -> 0 <= x) -> 0 <= sum l.
Proof.
  induction l as [|x l IH]; intros Hl; [reflexivity|].
  rewrite sum_cons.
  assert (0 <= x) by (apply Hl; now left).
  assert (0 <= sum l) by (apply IH; intros y Hy; apply Hl; now right). lia.
Qed.

Lemma sum_zero_np_any (l : list Z) :
  (forall x, In x l -> 0 <= x) -> sum l = 0 -> np_any l = false.
Proof.
  induction l as [|x l IH]; intros Hl; [reflexivity|].
  rewrite sum_cons. intros Hsum. simpl.
  assert (0 <= x) by (apply Hl; now left).
  assert (0 <= sum l) by (apply sum_nonneg; intros y Hy; apply Hl; now right).
  rewrite IH; [|intros y Hy; apply Hl; now right | lia].
  replace x with 0 by lia. reflexivity.
Qed.

(** The loop of [_mero_checkpoint] from any starting count. *)
Lemma count_mero_from (sites : list PlugSite.t) (chs : list Chromosome.t) (n : Z) :
  fold_left
    (fun nb_mero ch =>
       if np_any (erroneous sites ch) then nb_mero + sum (erroneous sites ch)
       else nb_mero) chs n
  = n + sum (concat (map (erroneous sites) chs)).
Proof.
  revert n. induction chs as [|ch chs IH]; intros n; simpl.
  - unfold sum. simpl. lia.
  - rewrite IH, sum_app.
    destruct (np_any (erroneous sites ch)) eqn:Hany; [lia|].
    rewrite (np_any_false_sum _ Hany). lia.
Qed.

(** X4: the merotelic count is the plain total of the erroneous counts
    of all chromosomes: the [np.any] guard of the loop never changes the
    sum.  [_mero_checkpoint] returns it and leaves the world alone. *)
Theorem mero_checkpoint_total w :
  _mero_checkpoint w = (Ok (erroneous_total (KD (self w))), w).
Proof.
  unfold _mero_checkpoint, bind, get_self, ret, count_mero, erroneous_total.
  now rewrite count_mero_from.
Qed.

(** X5: when the erroneous counts are counts, the merotelic count is
    not negative, and it is zero exactly when no chromosome has an
    erroneous attachment. *)
Theorem count_mero_zero_iff (kd : KinetoDynamics) :
  erroneous_are_counts kd ->
  0 <= count_mero kd /\
  (count_mero kd = 0 <->
   forall ch, In ch (chromosomes kd) -> np_any (erroneous (all_plugsites kd) ch) = false).
Proof.
  unfold erroneous_are_counts, count_mero. rewrite count_mero_from.
  generalize (all_plugsites kd) as sites. intros sites.
  induction (chromosomes kd) as [|ch chs IH]; intros Hc.
  - split; [reflexivity|]. split; [intros _ ch [] | reflexivity].
  - cbn [map concat]. rewrite sum_app.
    assert (Hch : forall x, In x (erroneous sites ch) -> 0 <= x)
      by (intros x Hx; apply (Hc ch); [now left | exact Hx]).
    destruct IH as [Hpos Hiff]; [intros ch' x Hin; apply Hc; now right|].
    pose proof (sum_nonneg _ Hch) as Hsch.
    split; [lia|]. split.
    + intros Hz ch' [<-|Hin].
      * apply sum_zero_np_any; [exact Hch | lia].
      * apply Hiff; [lia | exact Hin].
    + intros Hall.
      rewrite (np_any_false_sum _ (Hall ch (or_introl eq_refl))).
      assert (0 + sum (concat (map (erroneous sites) chs)) = 0)
        by (apply Hiff; intros ch' Hin; apply Hall; now right).
      lia.
Qed.

Lemma mplate_loop_true (chs : list Chromosome.t) : mplate_loop chs = true.
Proof.
  induction chs as [|ch chs IH]; simpl; [reflexivity|].
  destruct (_ && _); [reflexivity | exact IH].
Qed.

(** X6: the metaphase-plate checkpoint returns true whatever the
    positions of the kinetochores, also when no pair straddles the
    spindle centre and when there is no chromosome; the world is left
    alone. *)
Theorem mplate_checkpoint_always_true w : _mplate_checkpoint w = (Ok true, w).
Proof.
  unfold _mplate_checkpoint, bind, get_self, ret. now rewrite mplate_loop_true.
Qed.

(** X7: [_anaphase_test] reads [t_A] and [dt] before it looks at the
    latch, so a missing [t_A] or [dt] raises [KeyError] also on a latched
    instance; [sac] is read only when the instance is not latched and
    the time has reached the threshold, so before the threshold a
    missing [sac] goes unnoticed.  In every case the world is left as
    it was. *)
Theorem anaphase_test_missing_keys time_point w :
  (params (KD (self w)) !! "t_A" = None ->
   _anaphase_test time_point w = (Raise (KeyError "t_A"), w)) /\
  (forall p : Q,
     params (KD (self w)) !! "t_A" = Some p ->
     params (KD (self w)) !! "dt" = None ->
     _anaphase_test time_point w = (Raise (KeyError "dt"), w)) /\
  (forall p dt : Q,
     params (KD (self w)) !! "t_A" = Some p ->
     params (KD (self w)) !! "dt" = Some dt ->
     params (KD (self w)) !! "sac" = None ->
     anaphase (KD (self w)) = false ->
     ((inject_Z (int p) <= inject_Z time_point * dt)%Q ->
      _anaphase_test time_point w = (Raise (KeyError "sac"), w)) /\
     (~ (inject_Z (int p) <= inject_Z time_point * dt)%Q ->
      _anaphase_test time_point w = (Ok false, w))).
Proof.
  split; [|split].
  - intros Hp. unfold _anaphase_test, bind. now rewrite (get_param_None _ _ Hp).
  - intros p Hp Hdt. unfold _anaphase_test, bind.
    now rewrite (get_param_Some _ _ _ Hp), (get_param_None _ _ Hdt).
  - intros p dt Hp Hdt Hsac Ha.
    split; [intros Hle | intros Hno]; unfold _anaphase_test;
      (unfold bind at 1; rewrite (get_param_Some _ _ _ Hp));
      (unfold bind at 1; rewrite (get_param_Some _ _ _ Hdt));
      unfold bind at 1; unfold get_self at 1; rewrite Ha; unfold le.
    + apply Qle_bool_iff in Hle. rewrite Hle.
      unfold bind, _plug_checkpoint, bind. now rewrite (get_param_None _ _ Hsac).
    + destruct (Qle_bool (inject_Z (int p)) (inject_Z time_point * dt)) eqn:Hle.
      * exfalso. apply Hno. now apply Qle_bool_iff.
      * reflexivity.
Qed.

Lemma lt_iff (x y : Q) : lt x y = true <-> (x < y)%Q.
Proof.
  unfold lt. rewrite negb_true_iff. split.
  - intros Hb. apply Qnot_le_lt. intros Hle. apply Qle_bool_iff in Hle. congruence.
  - intros Hlt. destruct (Qle_bool y x) eqn:Hb; [|reflexivity].
    apply Qle_bool_iff in Hb. exfalso. exact (Qlt_not_le _ _ Hlt Hb).
Qed.

(** X8: a shot between the poles sets [Fmz], [k_a] and [k_d0] to 0 and
    no other parameter, and stores in [A0_mat] the matrix
    [time_invariantA] computes from the new parameters (before any plug
    site is detached).  Every plug site is then either left as it was or
    replaced by what [set_plug_state(0, time_point)] makes of it, so
    their number is kept.  The latch, the done flag, the poles, the
    chromosomes, the coupling matrix, the report and the delay are left
    alone.  Of the calls a trace records, the shot makes one, to
    [time_invariantA]: it calls neither the logger, nor [pprogress], nor
    [one_step], nor [calc_B]. *)
Theorem ablation_hit_frame time_point pos w :
  between_poles (self w) (aim (self w) pos) ->
  let w' := snd (_ablation time_point pos w) in
  let kd := KD (self w) in
  let kd' := KD (self w') in
  params kd' !! "Fmz" = Some 0%Q /\
  params kd' !! "k_a" = Some 0%Q /\
  params kd' !! "k_d0" = Some 0%Q /\
  (forall key : string,
     key <> "Fmz" -> key <> "k_a" -> key <> "k_d0" ->
     params kd' !! key = params kd !! key) /\
  A0_mat kd' = time_invariantA (set_params (params kd') kd) /\
  trace w' = (trace w ++ [CallTimeInvariantA])%list /\
  List.length (all_plugsites kd') = List.length (all_plugsites kd) /\
  (forall (i : nat) (s : PlugSite.t),
     all_plugsites kd !! i = Some s ->
     all_plugsites kd' !! i = Some s \/
     all_plugsites kd' !! i = Some (set_plug_state 0 time_point s)) /\
  anaphase kd' = anaphase kd /\
  simulation_done kd' = simulation_done kd /\
  spbL kd' = spbL kd /\ spbR kd' = spbR kd /\
  chromosomes kd' = chromosomes kd /\
  B_mat kd' = B_mat kd /\
  report (self w') = report (self w) /\
  delay (self w') = delay (self w) /\
  num_steps (self w') = num_steps (self w).
Proof.
  intros Hyes w' kd kd'. subst w' kd kd'.
  rewrite (ablation_hit _ _ _ Hyes).
  cbn [fst snd self trace KD set_KD set_all_plugsites set_A0_mat set_params
       all_plugsites params A0_mat anaphase simulation_done spbL spbR
       chromosomes B_mat report delay num_steps].
  split; [now rewrite !lookup_insert_ne, lookup_insert_eq by discriminate|].
  split; [now rewrite lookup_insert_ne, lookup_insert_eq by discriminate|].
  split; [apply lookup_insert_eq|].
  split; [intros key H1 H2 H3; now rewrite !lookup_insert_ne by congruence|].
  split; [reflexivity|]. split; [reflexivity|].
  split; [apply length_map|].
  split.
  { intros i s Hi. rewrite lookup_map, Hi. cbn [option_map]. unfold ablate.
    destruct (_ && _); [now right|]. destruct (_ && _); [now right | now left]. }
  repeat split; reflexivity.
Qed.

Lemma ablate_cases (x : Q) time_point (s : PlugSite.t) :
  (ablate x time_point s = set_plug_state 0 time_point s /\
   (((x < PlugSite.pos s)%Q /\ PlugSite.plug_state s = -1) \/
    ((PlugSite.pos s < x)%Q /\ PlugSite.plug_state s = 1))) \/
  (ablate x time_point s = s /\
   ~ ((x < PlugSite.pos s)%Q /\ PlugSite.plug_state s = -1) /\
   ~ ((PlugSite.pos s < x)%Q /\ PlugSite.plug_state s = 1)).
Proof.
  unfold ablate.
  destruct (lt x (PlugSite.pos s) && (PlugSite.plug_state s =? -1)) eqn:H1.
  { left. split; [reflexivity|]. left.
    apply andb_true_iff in H1. destruct H1 as [Hl He].
    split; [now apply lt_iff | now apply Z.eqb_eq]. }
  destruct (lt (PlugSite.pos s) x && (PlugSite.plug_state s =? 1)) eqn:H2.
  { left. split; [reflexivity|]. right.
    apply andb_true_iff in H2. destruct H2 as [Hl He].
    split; [now apply lt_iff | now apply Z.eqb_eq]. }
  right. split; [reflexivity|]. split.
  - intros [Hl He]. apply lt_iff in Hl. apply Z.eqb_eq in He.
    rewrite Hl, He in H1. discriminate.
  - intros [Hl He]. apply lt_iff in Hl. apply Z.eqb_eq in He.
    rewrite Hl, He in H2. discriminate.
Qed.

(** With a lawful [set_plug_state], a site the shot has treated is
    treated no further. *)
Lemma ablate_idempotent (x : Q) (t1 t2 : Z) (s : PlugSite.t) :
  set_plug_state_lawful ->
  ablate x t2 (ablate x t1 s) = ablate x t1 s.
Proof.
  intros Hlaw. destruct (ablate_cases x t1 s) as [[-> _]|[-> [Hn1 Hn2]]].
  - apply ablate_unattached. apply Hlaw.
  - destruct (ablate_cases x t2 s) as [[_ Hor]|[-> _]]; [|reflexivity].
    destruct Hor; contradiction.
Qed.

(** X9: with a [set_plug_state] that stores the state it is given and
    does not move the site, after a shot between the poles no plug site
    beyond the aim is still bound to the left pole and none before it is
    still bound to the right pole; every site is where it was, in the
    state it had or unattached; and a second shot at the same place, at
    any later time, changes no plug site. *)
Theorem ablation_detaches_far_side time_point pos w :
  set_plug_state_lawful ->
  between_poles (self w) (aim (self w) pos) ->
  let x := aim (self w) pos in
  let w' := snd (_ablation time_point pos w) in
  (forall s' : PlugSite.t,
     In s' (all_plugsites (KD (self w'))) ->
     ~ ((x < PlugSite.pos s')%Q /\ PlugSite.plug_state s' = -1) /\
     ~ ((PlugSite.pos s' < x)%Q /\ PlugSite.plug_state s' = 1)) /\
  (forall (i : nat) (s : PlugSite.t),
     all_plugsites (KD (self w)) !! i = Some s ->
     exists s' : PlugSite.t,
       all_plugsites (KD (self w')) !! i = Some s' /\
       PlugSite.pos s' = PlugSite.pos s /\
       (PlugSite.plug_state s' = PlugSite.plug_state s \/ PlugSite.plug_state s' = 0)) /\
  (forall later : Z,
     all_plugsites (KD (self (snd (_ablation later pos w'))))
     = all_plugsites (KD (self w'))).
Proof.
  intros Hlaw Hyes x w'.
  assert (Hsites : all_plugsites (KD (self w'))
                   = map (ablate x time_point) (all_plugsites (KD (self w)))).
  { subst w'. now rewrite (ablation_hit _ _ _ Hyes). }
  assert (Hpoles : spbL (KD (self w')) = spbL (KD (self w)) /\
                   spbR (KD (self w')) = spbR (KD (self w))).
  { subst w'. now rewrite (ablation_hit _ _ _ Hyes). }
  split; [|split].
  - intros s' Hin. rewrite Hsites in Hin. apply in_map_iff in Hin.
    destruct Hin as (s & <- & _).
    destruct (ablate_cases x time_point s) as [[-> _]|[-> Hn]]; [|exact Hn].
    destruct (Hlaw 0 time_point s) as [Hst _]. rewrite Hst.
    split; intros [_ Habs]; discriminate.
  - intros i s Hi. rewrite Hsites, lookup_map, Hi. cbn [option_map].
    eexists. split; [reflexivity|].
    destruct (ablate_cases x time_point s) as [[-> _]|[-> _]].
    + destruct (Hlaw 0 time_point s) as [Hst Hpos]. split; [exact Hpos | now right].
    + split; [reflexivity | now left].
  - intros later.
    assert (Haim : aim (self w') pos = x).
    { subst x. destruct pos; cbn [aim]; [reflexivity | now rewrite (proj2 Hpoles)]. }
    assert (Hyes' : between_poles (self w') (aim (self w') pos)).
    { rewrite Haim. unfold between_poles.
      rewrite (proj1 Hpoles), (proj2 Hpoles). exact Hyes. }
    rewrite (ablation_hit _ _ _ Hyes').
    cbn [snd self KD set_KD set_all_plugsites all_plugsites].
    rewrite Haim, Hsites, map_map.
    apply map_ext. intros s. now apply ablate_idempotent.
Qed.

End CheckpointFacts.

(** ** Whole runs *)

Section RunFacts.

Context `{Collaborator}.

Implicit Types (w : World) (time_point : Z) (pos ablat ablat_pos : option Q).

(** *** The pieces of a step *)

Lemma emit_log (e : Event) w : emit e w = (Ok tt, log_ e w).
Proof. reflexivity. Qed.

Lemma ablation_cases time_point pos w :
  exists w' (e : Event),
    _ablation time_point pos w = (Ok tt, w') /\
    trace w' = (trace w ++ [e])%list /\
    (e = LogWarning missed_shot_msg \/ e = CallTimeInvariantA) /\
    verbose (self w') = verbose (self w) /\
    num_steps (self w') = num_steps (self w) /\
    report (self w') = report (self w) /\
    delay (self w') = delay (self w) /\
    anaphase (KD (self w')) = anaphase (KD (self w)).
Proof.
  destruct (le (Spb.pos (spbL (KD (self w)))) (aim (self w) pos)
            && le (aim (self w) pos) (Spb.pos (spbR (KD (self w))))) eqn:Ht.
  - apply between_poles_test in Ht.
    eexists _, CallTimeInvariantA. rewrite (ablation_hit _ _ _ Ht).
    split; [reflexivity|]. cbn. repeat split; try reflexivity. now right.
  - assert (Hno : ~ between_poles (self w) (aim (self w) pos)).
    { intros Hyes. apply between_poles_test in Hyes. congruence. }
    eexists _, (LogWarning missed_shot_msg). rewrite (ablation_missed _ _ _ Hno).
    split; [reflexivity|]. cbn. repeat split; try reflexivity. now left.
Qed.

Lemma plug_checkpoint_raise w (e : exn) w1 :
  _plug_checkpoint w = (Raise e, w1) -> e = KeyError "sac".
Proof.
  unfold _plug_checkpoint, bind.
  destruct (params (KD (self w)) !! "sac") as [sac|] eqn:Hs.
  - rewrite (get_param_Some _ _ _ Hs). destruct (eq sac 0); discriminate.
  - rewrite (get_param_None _ _ Hs). congruence.
Qed.

(** A call of [_anaphase_test] either leaves the world as it was, or
    fires. *)
Lemma anaphase_test_cases time_point w (r : outcome bool) w' :
  _anaphase_test time_point w = (r, w') ->
  (w' = w /\
   (r = Ok true -> anaphase (KD (self w)) = true) /\
   (forall e, r = Raise e -> exists k, In k loop_keys /\ e = KeyError k))
  \/
  (r = Ok true /\
   anaphase (KD (self w)) = false /\
   anaphase (KD (self w')) = true /\
   trace w' = (trace w ++ [CallCalcB])%list /\
   verbose (self w') = verbose (self w) /\
   num_steps (self w') = num_steps (self w) /\
   (0 <= delay (self w'))%Q /\
   (report (self w') = report (self w) \/
    exists nb_mero : Z,
      nb_mero <> 0 /\
      report (self w') = (report (self w) ++ [mero_msg nb_mero])%list)).
Proof.
  intros Heq. unfold loop_keys.
  destruct (params (KD (self w)) !! "t_A") as [p|] eqn:Hp.
  2:{ left. unfold _anaphase_test, bind in Heq. rewrite (get_param_None _ _ Hp) in Heq.
      injection Heq as <- <-. split; [reflexivity|]. split; [discriminate|].
      intros e He. injection He as <-. exists "t_A". split; [now left | reflexivity]. }
  destruct (params (KD (self w)) !! "dt") as [dt|] eqn:Hdt.
  2:{ left. unfold _anaphase_test, bind in Heq.
      rewrite (get_param_Some _ _ _ Hp), (get_param_None _ _ Hdt) in Heq.
      injection Heq as <- <-. split; [reflexivity|]. split; [discriminate|].
      intros e He. injection He as <-. exists "dt". split; [right; now left | reflexivity]. }
  destruct (anaphase (KD (self w))) eqn:Ha.
  { left. rewrite (anaphase_test_latched _ _ _ _ Hp Hdt Ha) in Heq.
    injection Heq as <- <-. split; [reflexivity|]. split; [reflexivity | discriminate]. }
  assert (Hwaits : ~ ((inject_Z (int p) <= inject_Z time_point * dt)%Q /\
                      fst (_plug_checkpoint w) = Ok true) ->
                   (forall e w1, _plug_checkpoint w = (Raise e, w1) -> e = KeyError "sac") ->
                   w' = w /\ (r = Ok true -> false = true) /\
                   (forall e, r = Raise e ->
                      exists k, In k ["t_A"; "dt"; "sac"] /\ e = KeyError k)).
  { intros Hno Hsac.
    assert (Hshape : r = Ok false \/ r = Raise (KeyError "sac")).
    { revert Heq. unfold _anaphase_test.
      unfold bind at 1. rewrite (get_param_Some _ _ _ Hp).
      unfold bind at 1. rewrite (get_param_Some _ _ _ Hdt).
      unfold bind at 1. unfold get_self at 1. rewrite Ha.
      unfold le. destruct (Qle_bool _ _) eqn:Hle.
      - unfold bind at 1.
        destruct (_plug_checkpoint w) as [[[|]|e] w1] eqn:Hpc.
        + exfalso. apply Hno. split; [now apply Qle_bool_iff | reflexivity].
        + intros Heq. injection Heq as <- _. now left.
        + intros Heq. injection Heq as <- _. right. now rewrite (Hsac e w1 eq_refl).
      - intros Heq. injection Heq as <- _. now left. }
    destruct (anaphase_test_waits time_point w p dt Hp Hdt Ha Hno) as (r' & Hr & Hne).
    rewrite Hr in Heq. injection Heq as -> <-.
    split; [reflexivity|]. split; [intros Ht; contradiction|].
    intros e He. destruct Hshape as [Hs|Hs]; rewrite Hs in He; [discriminate|].
    injection He as <-. exists "sac". split; [right; right; now left | reflexivity]. }
  destruct (Qle_bool (inject_Z (int p)) (inject_Z time_point * dt)) eqn:Hle.
  - apply Qle_bool_iff in Hle.
    pose proof (plug_checkpoint_world w) as Hw.
    destruct (_plug_checkpoint w) as [[[|]|e] w1] eqn:Hpc; simpl in Hw; subst w1.
    + right. rewrite (anaphase_test_fires _ _ _ _ Hp Hdt Ha Hle Hpc) in Heq.
      injection Heq as <- <-.
      cbn [self trace KD anaphase set_anaphase verbose num_steps delay report].
      split; [reflexivity|]. split; [reflexivity|]. split; [reflexivity|].
      split; [reflexivity|]. split; [reflexivity|]. split; [reflexivity|].
      split; [now apply Qle_minus_iff in Hle|].
      destruct (count_mero (KD (self w)) =? 0) eqn:Hz; [now left|].
      right. exists (count_mero (KD (self w))).
      split; [now apply Z.eqb_neq | reflexivity].
    + left. apply Hwaits; [intros [_ Hb]; discriminate|].
      intros e w1 He. discriminate.
    + left. apply Hwaits; [intros [_ Hb]; discriminate|].
      intros e' w1 He. injection He as <- <-. exact (plug_checkpoint_raise _ _ _ Hpc).
  - apply Qle_bool_false in Hle. left.
    apply Hwaits; [intros [Hb _]; contradiction|].
    intros e w1. apply plug_checkpoint_raise.
Qed.

Lemma call_one_step_inv time_point w (r : outcome unit) w' :
  call_one_step time_point w = (r, w') ->
  r = fst (one_step time_point (KD (self w))) /\
  w' = {| self := set_KD (snd (one_step time_point (KD (self w)))) (self w);
          trace := trace w ++ [CallOneStep time_point] |}.
Proof.
  unfold call_one_step, bind, emit. cbn [self trace KD].
  intros Heq. injection Heq as <- <-. split; reflexivity.
Qed.

(** The worlds a step that returns normally goes through: after the
    progress display, after the ablation, after the anaphase test, after
    the onset display, and after the integrator. *)
Lemma simul_step_inv ablat ablat_pos time_point (acc acc' : Z * bool) w w' :
  simul_step ablat ablat_pos time_point acc w = (Ok acc', w') ->
  exists (w1 w2 w3 w4 : World) (a : bool),
    (w1 = w \/ (verbose (self w) = true /\ exists n, w1 = log_ (Pprogress n) w)) /\
    ((ablat_now ablat time_point = false /\ w2 = w1) \/
     (ablat_now ablat time_point = true /\
      exists w1',
        (w1' = w1 \/
         (verbose (self w) = true /\ w1' = log_ (LogInfo "Performing ablation") w1)) /\
        _ablation time_point ablat_pos w1' = (Ok tt, w2))) /\
    _anaphase_test time_point w2 = (Ok a, w3) /\
    (w4 = w3 \/
     w4 = log_ (Pprogress (-1)) w3 \/
     (verbose (self w) = true /\
      exists s, w4 = log_ (LogInfo s) (log_ (Pprogress (-1)) w3))) /\
    call_one_step time_point w4 = (Ok tt, w').
Proof.
  intros Heq. unfold simul_step in Heq.
  unfold bind at 1 in Heq. unfold get_self at 1 in Heq.
  apply bind_Ok_inv in Heq. destruct Heq as (bef & w1 & H1 & Heq).
  apply bind_Ok_inv in Heq. destruct Heq as ([] & w2 & H2 & Heq).
  apply bind_Ok_inv in Heq. destruct Heq as (a & w3 & H3 & Heq).
  apply bind_Ok_inv in Heq. destruct Heq as (lo & w4 & H4 & Heq).
  apply bind_Ok_inv in Heq. destruct Heq as ([] & w5 & H5 & Heq).
  injection Heq as _ <-.
  exists w1, w2, w3, w4, a.
  split.
  { destruct (verbose (self w)) eqn:Hv; cbn [andb] in H1.
    - destruct (negb _) in H1.
      + cbn in H1. injection H1 as _ <-. right. split; [reflexivity|]. now eexists.
      + injection H1 as _ <-. now left.
    - injection H1 as _ <-. now left. }
  split.
  { destruct (ablat_now ablat time_point) eqn:Hab; cbn [when] in H2.
    - right. split; [reflexivity|].
      apply bind_Ok_inv in H2. destruct H2 as ([] & w1' & Hinfo & Habl).
      exists w1'. split.
      + destruct (verbose (self w)); cbn [when] in Hinfo.
        * rewrite emit_log in Hinfo. injection Hinfo as <-. right. now split.
        * injection Hinfo as <-. now left.
      + destruct (ablation_cases time_point ablat_pos w1') as (w2' & e & Hrun & _).
        rewrite Hrun in Habl |- *. now injection Habl as <-.
    - injection H2 as <-. now left. }
  split; [exact H3|].
  split; [|exact H5].
  destruct (a && negb (snd acc)); [|injection H4 as _ <-; now left].
  apply bind_Ok_inv in H4. destruct H4 as ([] & w3' & Hon & H4).
  rewrite emit_log in Hon. injection Hon as <-.
  apply bind_Ok_inv in H4. destruct H4 as ([] & w3'' & Hinfo & H4).
  injection H4 as _ <-.
  destruct (verbose (self w)); cbn [when] in Hinfo.
  - rewrite emit_log in Hinfo. injection Hinfo as <-.
    right. right. split; [reflexivity|]. now eexists.
  - injection Hinfo as <-. right. now left.
Qed.

(** *** Invariants of the loop *)

Section LoopInvariant.

Variables (ablat ablat_pos : option Q) (R : World -> World -> Prop).

Hypothesis R_refl : forall w, R w w.
Hypothesis R_trans : forall w1 w2 w3, R w1 w2 -> R w2 w3 -> R w1 w3.
Hypothesis R_verbose : forall w w', R w w' -> verbose (self w') = verbose (self w).
Hypothesis R_info :
  forall w (s : string), verbose (self w) = true -> R w (log_ (LogInfo s) w).
Hypothesis R_progress :
  forall w (n : Z), verbose (self w) = true -> R w (log_ (Pprogress n) w).
Hypothesis R_onset : forall w, R w (log_ (Pprogress (-1)) w).
Hypothesis R_ablation :
  forall time_point w w',
    ablat_now ablat time_point = true ->
    _ablation time_point ablat_pos w = (Ok tt, w') -> R w w'.
Hypothesis R_test :
  forall time_point w (a : bool) w',
    _anaphase_test time_point w = (Ok a, w') -> R w w'.
Hypothesis R_one_step :
  forall time_point w w', call_one_step time_point w = (Ok tt, w') -> R w w'.

Lemma step_invariant time_point (acc acc' : Z * bool) w w' :
  simul_step ablat ablat_pos time_point acc w = (Ok acc', w') -> R w w'.
Proof.
  intros Hstep.
  destruct (simul_step_inv _ _ _ _ _ _ _ Hstep)
    as (w1 & w2 & w3 & w4 & a & H1 & H2 & H3 & H4 & H5).
  assert (R1 : R w w1).
  { destruct H1 as [->|[Hv [n ->]]]; [apply R_refl | now apply R_progress]. }
  assert (R2 : R w1 w2).
  { destruct H2 as [[_ ->]|[Hab (w1' & Hinfo & Habl)]]; [apply R_refl|].
    apply R_trans with w1'; [|exact (R_ablation _ _ _ Hab Habl)].
    destruct Hinfo as [->|[Hv ->]]; [apply R_refl|].
    apply R_info. now rewrite (R_verbose _ _ R1). }
  assert (R3 : R w2 w3) by exact (R_test _ _ _ _ H3).
  assert (R03 : R w w3) by (eapply R_trans; [eapply R_trans|]; eassumption).
  assert (R4 : R w3 w4).
  { destruct H4 as [->|[->|[Hv [s ->]]]]; [apply R_refl | apply R_onset |].
    apply R_trans with (log_ (Pprogress (-1)) w3); [apply R_onset|].
    apply R_info. cbn [log_ self]. now rewrite (R_verbose _ _ R03). }
  apply R_trans with w4; [now apply R_trans with w3|].
  exact (R_one_step _ _ _ H5).
Qed.

Lemma loop_invariant (l : list Z) (acc acc' : Z * bool) w w' :
  for_ l (simul_step ablat ablat_pos) acc w = (Ok acc', w') -> R w w'.
Proof.
  revert acc w. induction l as [|time_point l IH]; intros acc w Hloop; cbn [for_] in Hloop.
  - injection Hloop as _ <-. apply R_refl.
  - apply bind_Ok_inv in Hloop. destruct Hloop as (acc1 & w1 & Hstep & Hloop).
    apply R_trans with w1; [exact (step_invariant _ _ _ _ _ Hstep) | exact (IH _ _ Hloop)].
Qed.

End LoopInvariant.

(** The world a run that returns normally leaves, from the world [w2]
    its loop leaves. *)
Lemma simul_Ok_world ablat ablat_pos w w' :
  simul ablat ablat_pos w = (Ok tt, w') ->
  exists (kappa_c : Q) (acc : Z * bool) (w2 : World),
    simulation_done (KD (self w)) = false /\
    params (KD (self w)) !! "kappa_c" = Some kappa_c /\
    for_ (range 1 (num_steps (self w))) (simul_step ablat ablat_pos) (0, false)
      (if verbose (self w) then log_ (LogInfo "Running simulation") w else w)
      = (Ok acc, w2) /\
    self w' =
      {| verbose := verbose (self w2);
         KD := set_chromosomes
                 (map (finalize (all_plugsites (KD (self w2))))
                      (chromosomes (KD (self w2))))
                 (set_params (<["kappa_c" := kappa_c]> (params (KD (self w2))))
                             (KD (self w2)));
         num_steps := num_steps (self w2);
         report := report (self w2) ++ [delay_msg (delay (self w2))];
         delay := delay (self w2) |} /\
    trace w' = (trace w2 ++
                if verbose (self w) then [Pprogress (-1); LogInfo "Simulation done"]
                else [])%list.
Proof.
  intros Heq. unfold simul in Heq.
  unfold bind at 1 in Heq. unfold get_self at 1 in Heq.
  destruct (simulation_done (KD (self w))) eqn:Hd; [discriminate|].
  apply bind_Ok_inv in Heq. destruct Heq as (kappa_c & w0 & Hk & Heq).
  pose proof (get_param_world "kappa_c" w) as Hw0. rewrite Hk in Hw0.
  simpl in Hw0. subst w0.
  assert (Hkc : params (KD (self w)) !! "kappa_c" = Some kappa_c).
  { destruct (params (KD (self w)) !! "kappa_c") as [v|] eqn:Hl.
    - rewrite (get_param_Some _ _ _ Hl) in Hk. congruence.
    - rewrite (get_param_None _ _ Hl) in Hk. discriminate. }
  apply bind_Ok_inv in Heq. destruct Heq as ([] & w1 & H1 & Heq).
  apply bind_Ok_inv in Heq. destruct Heq as (acc & w2 & Hloop & Heq).
  exists kappa_c, acc, w2.
  split; [reflexivity|]. split; [exact Hkc|].
  split.
  { destruct (verbose (self w)); cbn [when] in H1.
    - rewrite emit_log in H1. now injection H1 as <-.
    - now injection H1 as <-. }
  destruct (verbose (self w)); cbn in Heq; injection Heq as <-; cbn.
  - split; [reflexivity|]. now rewrite <- app_assoc.
  - split; [reflexivity|]. now rewrite app_nil_r.
Qed.

(** *** The report and the latch over a run *)

Lemma calc_B_calls_log (e : Event) w :
  calc_B_calls (trace (log_ e w))
  = (calc_B_calls (trace w) + calc_B_calls [e])%nat.
Proof. unfold log_. cbn [trace]. apply calc_B_calls_app. Qed.

Lemma report_grows_refl w : report_grows w w.
Proof.
  split; [reflexivity|]. split; [lia|].
  exists []. rewrite app_nil_r. repeat split; [cbn; lia | constructor].
Qed.

Lemma report_grows_trans w1 w2 w3 :
  report_grows w1 w2 -> report_grows w2 w3 -> report_grows w1 w3.
Proof.
  intros (Hv1 & Hc1 & ls1 & Hr1 & Hl1 & Hm1) (Hv2 & Hc2 & ls2 & Hr2 & Hl2 & Hm2).
  split; [congruence|]. split; [lia|].
  exists (ls1 ++ ls2)%list. split; [now rewrite Hr2, Hr1, app_assoc|].
  split; [rewrite length_app; lia | now apply Forall_app].
Qed.

(** A step that changes neither [verbose] nor the report. *)
Lemma report_grows_frame w w' (evs : list Event) :
  trace w' = (trace w ++ evs)%list ->
  verbose (self w') = verbose (self w) ->
  report (self w') = report (self w) ->
  report_grows w w'.
Proof.
  intros Ht Hv Hr. split; [exact Hv|]. rewrite Ht, calc_B_calls_app.
  split; [lia|]. exists []. rewrite app_nil_r.
  repeat split; [exact Hr | cbn; lia | constructor].
Qed.

Lemma report_grows_loop ablat ablat_pos (l : list Z) (acc acc' : Z * bool) w w' :
  for_ l (simul_step ablat ablat_pos) acc w = (Ok acc', w') -> report_grows w w'.
Proof.
  apply loop_invariant.
  - apply report_grows_refl.
  - apply report_grows_trans.
  - now intros w1 w2 (Hv & _).
  - intros w1 s _. now apply report_grows_frame with [LogInfo s].
  - intros w1 n _. now apply report_grows_frame with [Pprogress n].
  - intros w1. now apply report_grows_frame with [Pprogress (-1)].
  - intros time_point w1 w2 _ Habl.
    destruct (ablation_cases time_point ablat_pos w1)
      as (w2' & e & Hrun & Ht & _ & Hv & _ & Hr & _).
    rewrite Hrun in Habl. injection Habl as <-.
    now apply report_grows_frame with [e].
  - intros time_point w1 a w2 Htest.
    destruct (anaphase_test_cases _ _ _ _ Htest)
      as [(-> & _)|(_ & _ & _ & Ht & Hv & _ & _ & Hr)]; [apply report_grows_refl|].
    split; [exact Hv|]. rewrite Ht, calc_B_calls_app. cbn.
    split; [lia|].
    destruct Hr as [Hr|(nb_mero & Hnz & Hr)].
    + exists []. rewrite app_nil_r. repeat split; [exact Hr | cbn; lia | constructor].
    + exists [mero_msg nb_mero]. repeat split; [exact Hr | cbn; lia |].
      constructor; [now exists nb_mero | constructor].
  - intros time_point w1 w2 Hstep.
    destruct (call_one_step_inv _ _ _ _ Hstep) as [_ ->].
    now apply report_grows_frame with [CallOneStep time_point].
Qed.

(** X10: a run that returns normally keeps the lines the report had,
    and appends merotelic lines, at most one for each call of [calc_B],
    and then, last, the delay line, which tells the delay the instance
    records at the end. *)
Theorem simul_report_shape ablat ablat_pos w w' :
  simul ablat ablat_pos w = (Ok tt, w') ->
  exists ls : list string,
    report (self w') = (report (self w) ++ ls ++ [delay_msg (delay (self w'))])%list /\
    (List.length ls <= calc_B_calls (trace w') - calc_B_calls (trace w))%nat /\
    Forall mero_line ls.
Proof.
  intros Hrun.
  destruct (simul_Ok_world _ _ _ _ Hrun) as (kappa_c & acc & w2 & _ & _ & Hloop & Hs & Ht).
  destruct (report_grows_loop _ _ _ _ _ _ _ Hloop) as (_ & Hc & ls & Hr & Hl & Hm).
  assert (Hstart :
    calc_B_calls
      (trace (if verbose (self w) then log_ (LogInfo "Running simulation") w else w))
    = calc_B_calls (trace w) /\
    self (if verbose (self w) then log_ (LogInfo "Running simulation") w else w) = self w).
  { destruct (verbose (self w)); [|now split].
    rewrite calc_B_calls_log. cbn. split; [lia | reflexivity]. }
  destruct Hstart as [Hc0 Hs0]. rewrite Hc0 in Hl, Hc. rewrite Hs0 in Hr.
  exists ls. rewrite Hs, Ht. cbn [report delay]. rewrite Hr.
  split; [now rewrite <- app_assoc|]. split; [|exact Hm].
  rewrite calc_B_calls_app. lia.
Qed.

Lemma fires_once_refl w : fires_once w w.
Proof.
  unfold fires_once. repeat split; try reflexivity; try lia; try assumption.
Qed.

Lemma fires_once_trans w1 w2 w3 :
  fires_once w1 w2 -> fires_once w2 w3 -> fires_once w1 w3.
Proof.
  intros (Hv1 & Hlo1 & Hhi1 & Hl1 & Hf1 & Hd1) (Hv2 & Hlo2 & Hhi2 & Hl2 & Hf2 & Hd2).
  assert (Hcases : calc_B_calls (trace w2) = calc_B_calls (trace w1) \/
                   calc_B_calls (trace w2) = (calc_B_calls (trace w1) + 1)%nat) by lia.
  unfold fires_once. split; [congruence|]. split; [lia|].
  split.
  { destruct Hcases as [Hc|Hc]; [lia|].
    destruct (Hf1 Hc) as [Ha _]. destruct (Hl2 Ha) as [_ Hsame]. lia. }
  split.
  { intros Ha. destruct (Hl1 Ha) as [Ha2 Hc1]. destruct (Hl2 Ha2) as [Ha3 Hc2].
    split; [exact Ha3 | lia]. }
  split.
  { intros Hc3. destruct Hcases as [Hc|Hc].
    - apply Hf2. lia.
    - destruct (Hf1 Hc) as [Ha Hd]. destruct (Hl2 Ha) as [Ha3 Hsame].
      split; [exact Ha3|]. rewrite (Hd2 Hsame). exact Hd. }
  intros Hc3. rewrite Hd2 by lia. apply Hd1. lia.
Qed.

(** A step that makes no call of [calc_B], keeps [verbose] and the
    delay, and does not clear the latch. *)
Lemma fires_once_frame w w' (e : Event) :
  trace w' = (trace w ++ [e])%list ->
  calc_B_calls [e] = 0%nat ->
  verbose (self w') = verbose (self w) ->
  delay (self w') = delay (self w) ->
  (anaphase (KD (self w)) = true -> anaphase (KD (self w')) = true) ->
  fires_once w w'.
Proof.
  intros Ht He Hv Hd Ha. unfold fires_once. rewrite Ht, calc_B_calls_app, He.
  split; [exact Hv|]. split; [lia|]. split; [lia|].
  split; [intros Hl; split; [now apply Ha | lia]|].
  split; [lia | intros _; exact Hd].
Qed.

Lemma fires_once_loop ablat ablat_pos (l : list Z) (acc acc' : Z * bool) w w' :
  keeps_latch ->
  for_ l (simul_step ablat ablat_pos) acc w = (Ok acc', w') -> fires_once w w'.
Proof.
  intros Hlatch. apply loop_invariant.
  - apply fires_once_refl.
  - apply fires_once_trans.
  - now intros w1 w2 (Hv & _).
  - intros w1 s _. now apply fires_once_frame with (LogInfo s).
  - intros w1 n _. now apply fires_once_frame with (Pprogress n).
  - intros w1. now apply fires_once_frame with (Pprogress (-1)).
  - intros time_point w1 w2 _ Habl.
    destruct (ablation_cases time_point ablat_pos w1)
      as (w2' & e & Hrun & Ht & He & Hv & _ & _ & Hd & Ha).
    rewrite Hrun in Habl. injection Habl as <-.
    apply fires_once_frame with e; try assumption.
    + destruct He as [->| ->]; reflexivity.
    + now rewrite Ha.
  - intros time_point w1 a w2 Htest.
    destruct (anaphase_test_cases _ _ _ _ Htest)
      as [(-> & _)|(_ & Ha1 & Ha2 & Ht & Hv & _ & Hd & _)]; [apply fires_once_refl|].
    unfold fires_once. rewrite Ht, calc_B_calls_app. cbn.
    split; [exact Hv|]. split; [lia|]. split; [lia|].
    split; [congruence|]. split; [now intros _ | lia].
  - intros time_point w1 w2 Hstep.
    destruct (call_one_step_inv _ _ _ _ Hstep) as [_ ->].
    apply fires_once_frame with (CallOneStep time_point); try reflexivity.
    cbn [self KD set_KD]. apply Hlatch.
Qed.

(** X11: with an integrator that never clears the latch, the anaphase
    transition fires at most once in a run that returns normally, and
    not at all on an instance already in anaphase.  If it has fired the
    instance ends in anaphase with a recorded delay that is not
    negative; if not, the recorded delay is what it was. *)
Theorem simul_fires_at_most_once ablat ablat_pos w w' :
  keeps_latch ->
  simul ablat ablat_pos w = (Ok tt, w') ->
  (calc_B_calls (trace w') <= calc_B_calls (trace w) + 1)%nat /\
  (anaphase (KD (self w)) = true -> never_fired w w') /\
  (~ never_fired w w' ->
     anaphase (KD (self w')) = true /\ (0 <= delay (self w'))%Q) /\
  (never_fired w w' -> delay (self w') = delay (self w)).
Proof.
  intros Hlatch Hrun. unfold never_fired.
  destruct (simul_Ok_world _ _ _ _ Hrun) as (kappa_c & acc & w2 & _ & _ & Hloop & Hs & Ht).
  destruct (fires_once_loop _ _ _ _ _ _ _ Hlatch Hloop)
    as (_ & Hlo & Hhi & Hl & Hf & Hd).
  assert (Hstart :
    calc_B_calls
      (trace (if verbose (self w) then log_ (LogInfo "Running simulation") w else w))
    = calc_B_calls (trace w) /\
    self (if verbose (self w) then log_ (LogInfo "Running simulation") w else w) = self w).
  { destruct (verbose (self w)); [|now split].
    rewrite calc_B_calls_log. cbn. split; [lia | reflexivity]. }
  destruct Hstart as [Hc0 Hs0]. rewrite Hc0 in *. rewrite Hs0 in *.
  assert (Hend : calc_B_calls (trace w') = calc_B_calls (trace w2)).
  { rewrite Ht, calc_B_calls_app. destruct (verbose (self w)); cbn; lia. }
  rewrite Hend, Hs. cbn [KD delay anaphase set_chromosomes set_params].
  split; [lia|]. split; [intros Ha; now apply Hl|].
  split; [intros Hne; apply Hf; lia | exact Hd].
Qed.

(** *** Quiet runs *)

Lemma stays_quiet_refl w : stays_quiet w w.
Proof.
  split; [reflexivity|]. intros _. exists []. now rewrite app_nil_r.
Qed.

Lemma stays_quiet_trans w1 w2 w3 :
  stays_quiet w1 w2 -> stays_quiet w2 w3 -> stays_quiet w1 w3.
Proof.
  intros [Hv1 Hq1] [Hv2 Hq2]. split; [congruence|].
  intros Hv. destruct (Hq1 Hv) as (evs1 & Ht1 & He1).
  destruct Hq2 as (evs2 & Ht2 & He2); [congruence|].
  exists (evs1 ++ evs2)%list. split; [now rewrite Ht2, Ht1, app_assoc|].
  now rewrite forallb_app, He1, He2.
Qed.

Lemma stays_quiet_frame w w' (e : Event) :
  trace w' = (trace w ++ [e])%list ->
  verbose (self w') = verbose (self w) ->
  (verbose (self w) = false -> quiet_event e = true) ->
  stays_quiet w w'.
Proof.
  intros Ht Hv He. split; [exact Hv|]. intros Hq.
  exists [e]. split; [exact Ht|]. cbn. now rewrite (He Hq).
Qed.

Lemma stays_quiet_loop ablat ablat_pos (l : list Z) (acc acc' : Z * bool) w w' :
  for_ l (simul_step ablat ablat_pos) acc w = (Ok acc', w') -> stays_quiet w w'.
Proof.
  apply loop_invariant.
  - apply stays_quiet_refl.
  - apply stays_quiet_trans.
  - now intros w1 w2 (Hv & _).
  - intros w1 s Hv. apply stays_quiet_frame with (LogInfo s); try reflexivity. congruence.
  - intros w1 n Hv. apply stays_quiet_frame with (Pprogress n); try reflexivity. congruence.
  - intros w1. now apply stays_quiet_frame with (Pprogress (-1)).
  - intros time_point w1 w2 _ Habl.
    destruct (ablation_cases time_point ablat_pos w1)
      as (w2' & e & Hrun & Ht & He & Hv & _).
    rewrite Hrun in Habl. injection Habl as <-.
    apply stays_quiet_frame with e; try assumption.
    intros _. destruct He as [->| ->]; reflexivity.
  - intros time_point w1 a w2 Htest.
    destruct (anaphase_test_cases _ _ _ _ Htest)
      as [(-> & _)|(_ & _ & _ & Ht & Hv & _)]; [apply stays_quiet_refl|].
    now apply stays_quiet_frame with CallCalcB.
  - intros time_point w1 w2 Hstep.
    destruct (call_one_step_inv _ _ _ _ Hstep) as [_ ->].
    now apply stays_quiet_frame with (CallOneStep time_point).
Qed.

(** X12: with [verbose] off, a run that returns normally makes no call
    of [log.info] and displays no percentage: besides its calls to the
    collaborator and a missed-shot warning, the only call it can make is
    [pprogress(-1)], the one the loop makes at anaphase onset without
    asking [verbose]. *)
Theorem simul_quiet ablat ablat_pos w w' :
  verbose (self w) = false ->
  simul ablat ablat_pos w = (Ok tt, w') ->
  exists evs : list Event,
    trace w' = (trace w ++ evs)%list /\ forallb quiet_event evs = true.
Proof.
  intros Hv Hrun.
  destruct (simul_Ok_world _ _ _ _ Hrun) as (kappa_c & acc & w2 & _ & _ & Hloop & _ & Ht).
  rewrite Hv in Hloop, Ht.
  destruct (stays_quiet_loop _ _ _ _ _ _ _ Hloop) as [_ Hq].
  destruct (Hq Hv) as (evs & Hevs & Hall).
  exists evs. split; [|exact Hall]. now rewrite Ht, app_nil_r.
Qed.

(** *** Laser shots over a run *)

Lemma shots_app (tr1 tr2 : list Event) : shots (tr1 ++ tr2) = (shots tr1 + shots tr2)%nat.
Proof. unfold shots. now rewrite List.filter_app, length_app. Qed.

Lemma range_nil (lo hi : Z) : hi <= lo -> range lo hi = [].
Proof. intros Hle. unfold range. now replace (Z.to_nat (hi - lo)) with 0%nat by lia. Qed.

Lemma range_cons (lo hi : Z) : lo < hi -> range lo hi = lo :: range (lo + 1) hi.
Proof.
  intros Hlt. unfold range.
  replace (Z.to_nat (hi - lo)) with (S (Z.to_nat (hi - (lo + 1)))) by lia.
  cbn [seq map]. f_equal; [lia|].
  rewrite <- seq_shift, map_map. apply map_ext. intros i. lia.
Qed.

Lemma In_range (lo hi x : Z) : In x (range lo hi) <-> lo <= x < hi.
Proof.
  unfold range. rewrite in_map_iff. split.
  - intros (i & <- & Hi). apply in_seq in Hi. lia.
  - intros Hx. exists (Z.to_nat (x - lo)). split; [lia|]. apply in_seq. lia.
Qed.

Lemma ablat_now_unique ablat (x y : Z) :
  ablat_now ablat x = true -> ablat_now ablat y = true -> x = y.
Proof.
  destruct ablat as [a|]; [|discriminate]. unfold ablat_now, eq.
  intros Hx Hy. apply Qeq_bool_iff in Hx, Hy.
  apply inject_Z_injective. now rewrite <- Hx, <- Hy.
Qed.

(** At most one of the time points the loop visits is the ablation
    time. *)
Lemma ablat_now_count ablat (lo hi : Z) :
  List.length (List.filter (ablat_now ablat) (range lo hi))
  = if existsb (ablat_now ablat) (range lo hi) then 1%nat else 0%nat.
Proof.
  remember (Z.to_nat (hi - lo)) as k eqn:Hk. revert lo Hk.
  induction k as [|k IH]; intros lo Hk.
  - now rewrite range_nil by lia.
  - rewrite range_cons by lia. cbn [List.filter existsb].
    destruct (ablat_now ablat lo) eqn:Hlo; [|apply IH; lia].
    cbn [orb List.length]. f_equal.
    assert (Hnone : forall y, In y (range (lo + 1) hi) -> ablat_now ablat y = false).
    { intros y Hy. apply In_range in Hy.
      destruct (ablat_now ablat y) eqn:Hy'; [|reflexivity].
      pose proof (ablat_now_unique _ _ _ Hlo Hy'). lia. }
    induction (range (lo + 1) hi) as [|y l IHl]; [reflexivity|].
    cbn [List.filter]. rewrite (Hnone y) by now left.
    apply IHl. intros z Hz. apply Hnone. now right.
Qed.

Lemma shots_step ablat ablat_pos time_point (acc acc' : Z * bool) w w' :
  simul_step ablat ablat_pos time_point acc w = (Ok acc', w') ->
  shots (trace w') =
  (shots (trace w) + if ablat_now ablat time_point then 1 else 0)%nat.
Proof.
  intros Hstep.
  destruct (simul_step_inv _ _ _ _ _ _ _ Hstep)
    as (w1 & w2 & w3 & w4 & a & H1 & H2 & H3 & H4 & H5).
  assert (S1 : shots (trace w1) = shots (trace w)).
  { destruct H1 as [->|[_ [n ->]]]; [reflexivity|].
    cbn [log_ trace]. rewrite shots_app. cbn. lia. }
  assert (S2 : shots (trace w2) =
               (shots (trace w1) + if ablat_now ablat time_point then 1 else 0)%nat).
  { destruct H2 as [[-> ->]|[-> (w1' & Hinfo & Habl)]]; [lia|].
    destruct (ablation_cases time_point ablat_pos w1') as (w2' & e & Hrun & Ht & He & _).
    rewrite Hrun in Habl. injection Habl as <-. rewrite Ht, shots_app.
    assert (shots (trace w1') = shots (trace w1)).
    { destruct Hinfo as [->|[_ ->]]; [reflexivity|].
      cbn [log_ trace]. rewrite shots_app. cbn. lia. }
    destruct He as [->| ->]; cbn; lia. }
  assert (S3 : shots (trace w3) = shots (trace w2)).
  { destruct (anaphase_test_cases _ _ _ _ H3) as [(-> & _)|(_ & _ & _ & Ht & _)];
      [reflexivity|].
    rewrite Ht, shots_app. cbn. lia. }
  assert (S4 : shots (trace w4) = shots (trace w3)).
  { destruct H4 as [->|[->|[_ [s ->]]]]; [reflexivity| |];
      cbn [log_ trace]; rewrite !shots_app; cbn; lia. }
  destruct (call_one_step_inv _ _ _ _ H5) as [_ ->]. cbn [trace].
  rewrite shots_app. cbn. lia.
Qed.

Lemma shots_loop ablat ablat_pos (l : list Z) (acc acc' : Z * bool) w w' :
  for_ l (simul_step ablat ablat_pos) acc w = (Ok acc', w') ->
  shots (trace w') =
  (shots (trace w) + List.length (List.filter (ablat_now ablat) l))%nat.
Proof.
  revert acc w. induction l as [|time_point l IH]; intros acc w Hloop; cbn [for_] in Hloop.
  - injection Hloop as _ <-. cbn. lia.
  - apply bind_Ok_inv in Hloop. destruct Hloop as (acc1 & w1 & Hstep & Hloop).
    rewrite (IH _ _ Hloop), (shots_step _ _ _ _ _ _ _ Hstep). cbn [List.filter].
    destruct (ablat_now ablat time_point); cbn [List.length]; lia.
Qed.

(** X13: a run that returns normally fires the laser once if the
    ablation time is one of the time points [1 .. num_steps - 1] the
    loop visits, and never otherwise: not without an ablation time, not
    for the time 0, a time from [num_steps] on or a time that is not a
    whole number.  A shot is a call of [time_invariantA] or the warning
    of a miss. *)
Theorem simul_shots ablat ablat_pos w w' :
  simul ablat ablat_pos w = (Ok tt, w') ->
  shots (trace w') =
    (shots (trace w) +
     if ablat_visited ablat (num_steps (self w)) then 1 else 0)%nat /\
  (ablat_visited ablat (num_steps (self w)) = true <->
   exists (a : Q) (k : Z),
     ablat = Some a /\ 1 <= k < num_steps (self w) /\ (a == inject_Z k)%Q).
Proof.
  intros Hrun. split.
  - destruct (simul_Ok_world _ _ _ _ Hrun) as (kappa_c & acc & w2 & _ & _ & Hloop & _ & Ht).
    rewrite Ht, shots_app, (shots_loop _ _ _ _ _ _ _ Hloop), ablat_now_count.
    change (existsb (ablat_now ablat) (range 1 (num_steps (self w))))
      with (ablat_visited ablat (num_steps (self w))).
    destruct (verbose (self w)); cbn [log_ trace]; rewrite ?shots_app; cbn; lia.
  - unfold ablat_visited. rewrite existsb_exists. split.
    + intros (k & Hin & Hk). apply In_range in Hin.
      destruct ablat as [a|]; [|discriminate].
      exists a, k. repeat split; try lia. now apply Qeq_bool_iff.
    + intros (a & k & -> & Hk & Ha). exists k.
      split; [now apply In_range | now apply Qeq_bool_iff].
Qed.

(** *** The exceptions of a run *)





End RunFacts.

(** ** The shared random state *)

Section ConstructionFacts.

Lemma constructions_cached {State : Type} (calls : list (bool * State)) (s : State) :
  snd (constructions calls (Some s)) = Some s /\
  forall (i : nat) (e : State),
    calls !! i = Some (true, e) -> fst (constructions calls (Some s)) !! i = Some s.
Proof.
  induction calls as [|[keep e0] calls [IHc IHs]]; cbn [constructions].
  - split; [reflexivity | intros i e Hi; destruct i; discriminate].
  - assert (Hsnd : snd (choose_prng keep e0 (Some s)) = Some s) by now destruct keep.
    rewrite Hsnd. cbn [fst snd]. split; [exact IHc|].
    intros [|i] e Hi; cbn in Hi |- *.
    + injection Hi as -> ->. reflexivity.
    + now apply (IHs i e).
Qed.

Lemma constructions_fresh {State : Type} (calls : list (bool * State))
    (cache : option State) (i : nat) (e : State) :
  calls !! i = Some (false, e) -> fst (constructions calls cache) !! i = Some e.
Proof.
  revert cache i. induction calls as [|[keep e0] calls IH]; intros cache i Hi.
  - destruct i; discriminate.
  - cbn [constructions fst]. destruct i as [|i]; cbn in Hi |- *.
    + injection Hi as -> ->. reflexivity.
    + now apply IH.
Qed.

(** X16: over any sequence of constructions, all the instances built
    with [keep_same_random_seed] get a generator in one and the same
    state, the one stored in the class attribute; once the attribute
    holds a state it is never replaced; an instance built without the
    flag gets its own fresh state. *)
Theorem constructions_share_state {State : Type} (calls : list (bool * State))
    (cache : option State) :
  (forall (i j : nat) (ei ej : State),
     calls !! i = Some (true, ei) -> calls !! j = Some (true, ej) ->
     fst (constructions calls cache) !! i = fst (constructions calls cache) !! j /\
     fst (constructions calls cache) !! i = snd (constructions calls cache)) /\
  (forall s : State, cache = Some s -> snd (constructions calls cache) = Some s) /\
  (forall (i : nat) (e : State),
     calls !! i = Some (false, e) -> fst (constructions calls cache) !! i = Some e).
Proof.
  split; [|split].
  - assert (Hall : forall i ei, calls !! i = Some (true, ei) ->
              fst (constructions calls cache) !! i = snd (constructions calls cache)).
    { revert cache. induction calls as [|[keep e0] calls IH]; intros cache i ei Hi.
      - destruct i; discriminate.
      - destruct cache as [s|].
        + destruct (constructions_cached ((keep, e0) :: calls) s) as [Hc Hs].
          rewrite Hc. exact (Hs i ei Hi).
        + destruct keep; cbn [constructions choose_prng get_random_state fst snd].
          * destruct (constructions_cached calls e0) as [Hc Hs]. rewrite Hc.
            destruct i as [|i]; cbn in Hi |- *; [reflexivity|]. exact (Hs i ei Hi).
          * destruct i as [|i]; cbn in Hi |- *; [discriminate|]. exact (IH None i ei Hi). }
    intros i j ei ej Hi Hj. split; [|exact (Hall i ei Hi)].
    now rewrite (Hall i ei Hi), (Hall j ej Hj).
  - intros s ->. apply constructions_cached.
  - intros i e. apply constructions_fresh.
Qed.

End ConstructionFacts.

(** ** More concrete runs *)

Section MoreRuns.

Import Stub Cases.

(** The erroneous counts of [attached]: one on [cen_A], two on [cen_B]. *)
Lemma count_mero_zero_iff_witness :
  0 <= count_mero (KD (self attached)) /\ count_mero (KD (self attached)) <> 0.
Proof.
  assert (Hc : erroneous_are_counts (KD (self attached))).
  { intros ch x [<-|[]] Hx. vm_compute in Hx. destruct Hx as [<-|[<-|[]]]; lia. }
  destruct (count_mero_zero_iff (KD (self attached)) Hc) as [Hpos Hiff].
  split; [exact Hpos|]. intros Hz.
  pose proof (proj1 Hiff Hz (chromosome (-3 # 8) (3 # 8)) (or_introl eq_refl)) as Hany.
  vm_compute in Hany. discriminate.
Defined.

(** [attached] without [t_A], also once latched, and without [sac]
    before and after the threshold of 20 s. *)
Lemma anaphase_test_missing_keys_witness :
  _anaphase_test 1 (without "t_A") = (Raise (KeyError "t_A"), without "t_A") /\
  _anaphase_test 1 (without "sac") = (Ok false, without "sac") /\
  _anaphase_test 2 (without "sac") = (Raise (KeyError "sac"), without "sac").
Proof.
  split; [|split].
  - apply (proj1 (anaphase_test_missing_keys 1 (without "t_A"))).
    vm_compute. reflexivity.
  - apply (proj2 (proj2 (anaphase_test_missing_keys 1 (without "sac"))) 20%Q 10%Q);
      try (vm_compute; reflexivity).
    intros Hle. vm_compute in Hle. apply Hle. reflexivity.
  - apply (proj2 (proj2 (anaphase_test_missing_keys 2 (without "sac"))) 20%Q 10%Q);
      try (vm_compute; reflexivity).
    vm_compute. discriminate.
Defined.

(** A shot at the spindle centre of [detached]. *)
Lemma ablation_hit_frame_witness :
  between_poles (self detached) 0%Q /\
  params (KD (self (snd (_ablation 1 (Some 0%Q) detached)))) !! "k_a" = Some 0%Q /\
  params (KD (self (snd (_ablation 1 (Some 0%Q) detached)))) !! "dt" = Some 10%Q /\
  trace (snd (_ablation 1 (Some 0%Q) detached)) = [CallTimeInvariantA].
Proof.
  assert (Hin : between_poles (self detached) (aim (self detached) (Some 0%Q))).
  { split; vm_compute; discriminate. }
  split; [exact Hin|].
  destruct (ablation_hit_frame 1 (Some 0%Q) detached Hin)
    as (_ & Hka & _ & Hother & _ & Htrace & _).
  split; [exact Hka|]. split; [|exact Htrace].
  rewrite Hother by discriminate. vm_compute. reflexivity.
Defined.

Lemma stub_lawful : set_plug_state_lawful.
Proof. intros v time_point s. split; reflexivity. Qed.

(** On [detached] the two sites left of the centre are bound to the
    right pole: the shot detaches them, and a second shot changes
    nothing. *)
Lemma ablation_detaches_far_side_witness :
  map PlugSite.plug_state
      (all_plugsites (KD (self (snd (_ablation 1 (Some 0%Q) detached)))))
    = [0; 0; 0; 0] /\
  all_plugsites
    (KD (self (snd (_ablation 2 (Some 0%Q) (snd (_ablation 1 (Some 0%Q) detached))))))
  = all_plugsites (KD (self (snd (_ablation 1 (Some 0%Q) detached)))).
Proof.
  assert (Hin : between_poles (self detached) (aim (self detached) (Some 0%Q))).
  { split; vm_compute; discriminate. }
  destruct (ablation_detaches_far_side 1 (Some 0%Q) detached stub_lawful Hin)
    as (_ & _ & Hagain).
  split; [vm_compute; reflexivity | apply Hagain].
Defined.

(** The run of [attached]: one merotelic line, then the delay line. *)
Lemma simul_report_shape_witness :
  report (self (snd (simul None (Some 0%Q) attached)))
    = ["There were 3 merotelic MT at anaphase onset"; "delay =  0 seconds"] /\
  exists ls : list string,
    report (self (snd (simul None (Some 0%Q) attached)))
    = (report (self attached) ++ ls ++
       [delay_msg (delay (self (snd (simul None (Some 0%Q) attached))))])%list /\
    (List.length ls <= 1)%nat.
Proof.
  split; [vm_compute; reflexivity|].
  destruct (simul_report_shape None (Some 0%Q) attached (snd (simul None (Some 0%Q) attached)))
    as (ls & Hrep & Hlen & _); [vm_compute; reflexivity|].
  exists ls. split; [exact Hrep|].
  vm_compute in Hlen. exact Hlen.
Defined.

Lemma stub_keeps_latch : keeps_latch.
Proof. intros time_point kd Ha. exact Ha. Qed.

(** The run of [attached] fires once, that of [latched] never. *)
Lemma simul_fires_at_most_once_witness :
  calc_B_calls (trace (snd (simul None (Some 0%Q) attached))) = 1%nat /\
  anaphase (KD (self (snd (simul None (Some 0%Q) attached)))) = true /\
  never_fired latched (snd (simul None (Some 0%Q) latched)).
Proof.
  destruct (simul_fires_at_most_once None (Some 0%Q) attached
              (snd (simul None (Some 0%Q) attached)) stub_keeps_latch)
    as (_ & _ & Hfired & _); [vm_compute; reflexivity|].
  destruct (simul_fires_at_most_once None (Some 0%Q) latched
              (snd (simul None (Some 0%Q) latched)) stub_keeps_latch)
    as (_ & Hnever & _); [vm_compute; reflexivity|].
  split; [vm_compute; reflexivity|].
  split; [|apply Hnever; vm_compute; reflexivity].
  apply Hfired. unfold never_fired. vm_compute. discriminate.
Defined.

(** The quiet run of [detached], with a shot at time point 1. *)
Lemma simul_quiet_witness :
  verbose (self detached) = false /\
  exists evs : list Event,
    trace (snd (simul (Some 1%Q) (Some 0%Q) detached)) = (trace detached ++ evs)%list /\
    forallb quiet_event evs = true.
Proof.
  split; [reflexivity|].
  apply (simul_quiet (Some 1%Q) (Some 0%Q) detached); vm_compute; reflexivity.
Defined.

(** On [detached], five steps: a shot at time 1 is fired, shots at time
    0, 5 or 3/2 are not. *)
Lemma simul_shots_witness :
  shots (trace (snd (simul (Some 1%Q) (Some 0%Q) detached))) = 1%nat /\
  shots (trace (snd (simul (Some 0%Q) (Some 0%Q) detached))) = 0%nat /\
  shots (trace (snd (simul (Some 5%Q) (Some 0%Q) detached))) = 0%nat /\
  shots (trace (snd (simul (Some (3 # 2)%Q) (Some 0%Q) detached))) = 0%nat.
Proof.
  assert (Hrun : forall ablat, fst (simul ablat (Some 0%Q) detached) = Ok tt ->
            shots (trace (snd (simul ablat (Some 0%Q) detached)))
            = (shots (trace detached) + if ablat_visited ablat 5 then 1 else 0)%nat).
  { intros ablat Hok.
    apply (simul_shots ablat (Some 0%Q) detached (snd (simul ablat (Some 0%Q) detached))).
    rewrite <- Hok. now destruct (simul ablat (Some 0%Q) detached). }
  split; [|split; [|split]]; rewrite Hrun; vm_compute; reflexivity.
Defined.


(** The first and the third instance share the state 11; the second
    has its own. *)
Lemma constructions_share_state_witness :
  fst (constructions three_instances None) = [11%nat; 22%nat; 11%nat] /\
  fst (constructions three_instances None) !! 0%nat
    = fst (constructions three_instances None) !! 2%nat.
Proof.
  split; [reflexivity|].
  apply (proj1 (constructions_share_state three_instances None) 0%nat 2%nat 11%nat 33%nat);
    reflexivity.
Defined.

(** C7, as stated, fails.  With [t_A = 20.9] and [dt = 10], at time
    point 2 the time is 20, below [t_A], and the checkpoint passes; the
    transition fires all the same, because the code compares with
    [int(20.9) = 20], and it records the delay 0, not [20 - 20.9]. *)
Lemma anaphase_fires_below_t_A :
  params (KD (self fractional_threshold)) !! "t_A" = Some (209 # 10)%Q /\
  params (KD (self fractional_threshold)) !! "dt" = Some 10%Q /\
  anaphase (KD (self fractional_threshold)) = false /\
  fst (_plug_checkpoint fractional_threshold) = Ok true /\
  ~ ((209 # 10) <= inject_Z 2 * 10)%Q /\
  anaphase (KD (self (snd (_anaphase_test 2 fractional_threshold)))) = true /\
  (delay (self (snd (_anaphase_test 2 fractional_threshold))) == 0)%Q /\
  ~ (delay (self (snd (_anaphase_test 2 fractional_threshold)))
     == inject_Z 2 * 10 - (209 # 10))%Q.
Proof.
  split; [vm_compute; reflexivity|]. split; [vm_compute; reflexivity|].
  split; [reflexivity|]. split; [vm_compute; reflexivity|].
  split; [intros Hle; vm_compute in Hle; apply Hle; reflexivity|].
  split; [vm_compute; reflexivity|].
  split; [vm_compute; reflexivity|].
  intros Heq. vm_compute in Heq. discriminate.
Qed.

(** C3, as stated, fails if the diagnostic line is a line of the
    report.  A shot at 5 on [detached], whose poles are at -1 and 1,
    misses; the report has the lines it had, not one more, and the only
    line there is went to [log.warning]. *)
Lemma ablation_miss_appends_no_report_line :
  ~ between_poles (self detached) 5%Q /\
  fst (_ablation 1 (Some 5%Q) detached) = Ok tt /\
  report (self (snd (_ablation 1 (Some 5%Q) detached))) = report (self detached) /\
  List.length (report (self (snd (_ablation 1 (Some 5%Q) detached))))
    <> S (List.length (report (self detached))) /\
  trace (snd (_ablation 1 (Some 5%Q) detached)) = [LogWarning missed_shot_msg].
Proof.
  split.
  - intros [_ Hle]. vm_compute in Hle. apply Hle. reflexivity.
  - repeat split; try (vm_compute; reflexivity). vm_compute. discriminate.
Qed.

End MoreRuns.
